(** * manifoldjs-lib: the manifest validation orchestrator

    A shallow embedding of [src/manifestTools/validation.js]: the rule
    loader ([loadValidationRules]), the rule executor
    ([runValidationRules]), the coordinator ([validateManifest]) and the
    two icon rules ([imageValidation], [imageGroupValidation]).

    Conventions of the embedding.
    - Every function is modelled in its promise-returning form, that is
      with the optional node-style [callback] left out, so [nodeify] is
      the identity.
    - A promise is represented by the way it ends: fulfilled, rejected, or
      never settled.
    - [console.log] output and the calls made to the outside (file system,
      module loader, rules, platform modules) are recorded in a [World]
      that is threaded through the code.
    - The order in which independent callbacks complete is not fixed by
      the code; it is an explicit argument (a list of task indices). *)

From Stdlib Require Import ZArith String.
From stdpp Require Import base list strings.

Set Warnings "-register-all".

(** ** JavaScript values *)

(** Primitive values, the ones on which [===] is plain equality.  Numbers
    are the integers (icon sizes). *)
Inductive prim :=
| PUndefined
| PNull
| PBool (b : bool)
| PNum (n : Z)
| PStr (s : string).

#[global] Instance prim_eq_dec : EqDecision prim.
Proof. solve_decision. Defined.

(** [a === b] on primitives. *)
Definition strict_eq (a b : prim) : bool := bool_decide (a = b).

(** The module [../constants], of which only the members used here are
    needed; it is not part of the sources, so it is taken as a parameter. *)
Record Constants := {
  BASE_MANIFEST_FORMAT : string;
  levels_warning : string;
  manifestMembers_icons : string;
  codes_missingImage : string;
  codes_missingImageGroup : string
}.

(** The object literal that the icon rules report. *)
Record ResultRecord := {
  description : string;
  platform : string;
  level : string;
  member : string;
  code : string;
  data : list prim
}.

(** Values that reach a rule's completion callback, either as [err] or as
    [ruleResult]. *)
Inductive value :=
| VPrim (p : prim)
| VError (message : string)
| VRecord (r : ResultRecord)
| VArray (elements : list value).

Abbreviation undefined := (VPrim PUndefined).

(** JavaScript truthiness, as tested by [if (v)] and [!v]. *)
Definition truthy (v : value) : bool :=
  match v with
  | VPrim PUndefined | VPrim PNull => false
  | VPrim (PBool b) => b
  | VPrim (PNum n) => negb (n =? 0)%Z
  | VPrim (PStr s) => negb (String.eqb s "")
  | VError _ | VRecord _ | VArray _ => true
  end.

(** ** The manifest *)

Record Icon := { sizes : prim }.

(** [icons] is [None] when the member is absent (or otherwise falsy). *)
Record ManifestContent := { icons : option (list Icon) }.

(** [content] is [None] when it is missing (falsy). *)
Record DocumentInfo := {
  content : option ManifestContent;
  format : string
}.

(** ** The icon rules *)

Section IconRules.
Context (constants : Constants).
(** The answer type of the completion callback: the rules return what
    the callback returns. *)
Context {A : Type}.

(** The inner loop of [imageValidation]: [found] is set at every icon
    whose [sizes] is the required one, and the loop does not stop. *)
Definition foundIn (icons : list Icon) (requiredIcon : prim) : bool :=
  foldl (fun found icon =>
           if strict_eq requiredIcon (sizes icon) then true else found)
        false icons.

(** The outer loop: the required sizes that were not found, in order. *)
Definition missingIconsSizes (icons : list Icon) (requiredIconSizes : list prim)
  : list prim :=
  foldl (fun missing requiredIcon =>
           if foundIn icons requiredIcon then missing
           else missing ++ [requiredIcon])
        [] requiredIconSizes.

Definition imageValidation (manifestContent : ManifestContent)
    (description platform level : string) (requiredIconSizes : list prim)
    (callback : value -> value -> A) : A :=
  let result := {| description := description;
                   platform := platform;
                   level := level;
                   member := manifestMembers_icons constants;
                   code := codes_missingImage constants;
                   data := requiredIconSizes |} in
  match icons manifestContent with
  | None | Some [] => callback undefined (VRecord result)
  | Some icons =>
      let missing := missingIconsSizes icons requiredIconSizes in
      let result := {| description := description;
                       platform := platform;
                       level := level;
                       member := manifestMembers_icons constants;
                       code := codes_missingImage constants;
                       data := missing |} in
      match missing with
      | [] => callback undefined undefined
      | _ => callback undefined (VRecord result)
      end
  end.

(** The inner loop of [imageGroupValidation]: leaves at the first valid
    size equal to [iconSizes]. *)
Fixpoint matchesValid (iconSizes : prim) (validIconSizes : list prim) : bool :=
  match validIconSizes with
  | [] => false
  | v :: rest => if strict_eq iconSizes v then true else matchesValid iconSizes rest
  end.

(** The outer loop: leaves at the first icon that matches. *)
Fixpoint anyIconMatches (icons : list Icon) (validIconSizes : list prim) : bool :=
  match icons with
  | [] => false
  | icon :: rest =>
      if matchesValid (sizes icon) validIconSizes then true
      else anyIconMatches rest validIconSizes
  end.

Definition imageGroupValidation (manifestContent : ManifestContent)
    (description platform : string) (validIconSizes : list prim)
    (callback : value -> value -> A) : A :=
  let result := {| description := description;
                   platform := platform;
                   level := levels_warning constants;
                   member := manifestMembers_icons constants;
                   code := codes_missingImageGroup constants;
                   data := validIconSizes |} in
  match icons manifestContent with
  | None | Some [] => callback undefined (VRecord result)
  | Some icons =>
      if anyIconMatches icons validIconSizes then callback undefined undefined
      else callback undefined (VRecord result)
  end.
End IconRules.

(** ** Promises, the console and the outside world *)

(** How a settled promise ended. *)
Inductive settlement (A : Type) :=
| Fulfilled (v : A)
| Rejected (reason : value).
Arguments Fulfilled {A} v.
Arguments Rejected {A} reason.

(** A promise is observed through its end: [None] is a promise that never
    settles. *)
Definition promise (A : Type) := option (settlement A).

(** The calls that leave the module. *)
Inductive event :=
| EReaddir (dir : string)
| EStat (filePath : string)
| ERequire (filePath : string)
| ECallRule (index : nat)
| EGetValidationRules (platforms : list string).

Record World := {
  console : list value;   (* what [console.log] printed, oldest first *)
  trace : list event      (* the calls made, oldest first *)
}.

Definition emptyWorld : World := {| console := []; trace := [] |}.

(** State passing over the [World]. *)
Definition M (A : Type) : Type := World -> A * World.

Definition ret {A} (a : A) : M A := fun w => (a, w).

Definition bind {A B} (m : M A) (k : A -> M B) : M B :=
  fun w => let '(a, w') := m w in k a w'.

Notation "x <- m ;; k" := (bind m (fun x => k))
  (at level 100, m at next level, right associativity).
Notation "m ;;; k" := (bind m (fun _ => k))
  (at level 100, right associativity).

Definition console_log (v : value) : M unit :=
  fun w => (tt, {| console := console w ++ [v]; trace := trace w |}).

Definition emit (e : event) : M unit :=
  fun w => (tt, {| console := console w; trace := trace w ++ [e] |}).

Section Traversals.
Context {A B : Type}.

Section MapM.
Context (f : A -> M B).
Fixpoint mapM (l : list A) : M (list B) :=
  match l with
  | [] => ret []
  | a :: rest => b <- f a ;; bs <- mapM rest ;; ret (b :: bs)
  end.
End MapM.

Section FoldM.
Context (f : B -> A -> M B).
Fixpoint foldM (acc : B) (l : list A) : M B :=
  match l with
  | [] => ret acc
  | a :: rest => acc' <- f acc a ;; foldM acc' rest
  end.
End FoldM.
End Traversals.

(** ** Rules and rule modules *)

(** A rule is called with the manifest content and a completion callback.
    Under its contract (the callback is called once) a rule is described
    by the pair [(err, ruleResult)] that it passes to the callback; when
    the callback runs is decided by the scheduler. *)
Definition RuleFunction : Type := option ManifestContent -> value * value.

(** The value of an entry of the rules folder once it has been processed:
    what [require] returned, or the rules of a platform folder, or
    [undefined] for a folder left out. *)
Inductive loaded :=
| LFalsy                              (* [undefined], or any falsy export *)
| LRule (rule : RuleFunction)         (* a single rule *)
| LRules (rules : list RuleFunction). (* an array of rules *)

(** What [require(path)] does for a file. *)
Inductive requireOutcome :=
| Throws (message : string)
| Exports (e : loaded).

(** The part of the file system below the rules folder, as [fs.readdir],
    [fs.stat] and [require] see it. *)
Inductive fsnode :=
| StatFails (cause : string)                   (* [fs.stat] fails *)
| File (load : requireOutcome)                 (* not a directory *)
| Unlistable (cause : string)                  (* a directory; [fs.readdir] fails *)
| Directory (files : list (string * fsnode)).  (* a directory and its entries *)

(** [path.join] of a folder and an entry name. *)
Definition path_join (dir file : string) : string := dir +:+ "/" +:+ file.

(** The message of the [TypeError] raised by [platforms.indexOf] when
    [platforms] is [undefined]. *)
Definition indexOf_of_undefined : string :=
  "Cannot read property 'indexOf' of undefined".

(** ** The rule loader *)

(** The [reduce] over the settled entries: rules of fulfilled entries are
    appended, reasons of rejected entries are printed. *)
Definition consolidate (results : list (settlement loaded)) : M (list RuleFunction) :=
  foldM (fun validationRules result =>
           match result with
           | Fulfilled LFalsy => ret validationRules
           | Fulfilled (LRules rules) => ret (validationRules ++ rules)
           | Fulfilled (LRule rule) => ret (validationRules ++ [rule])
           | Rejected reason => console_log reason ;;; ret validationRules
           end)
        [] results.

Definition readError (validationRulesDir cause : string) : value :=
  VError ("Failed to read validation rules from the specified folder: '"
          +:+ validationRulesDir +:+ "'. " +:+ cause +:+ ".").

Definition loadError (file cause : string) : value :=
  VError ("Failed to load validation rule from file: '"
          +:+ file +:+ "'. " +:+ cause +:+ ".").

(** [platforms.indexOf(file) < 0] *)
Definition notListed (platforms : list string) (file : string) : bool :=
  bool_decide (file ∉ platforms).

(** [loadValidationRules(validationRulesDir, platforms)], where [node] is
    what the file system holds at [validationRulesDir].  [platforms] is
    [None] when the argument is not passed.  Entries are processed, and
    the diagnostics of nested calls printed, in the order of the listing. *)
Fixpoint loadValidationRules (node : fsnode) (validationRulesDir : string)
    (platforms : option (list string)) : M (settlement (list RuleFunction)) :=
  emit (EReaddir validationRulesDir) ;;;
  match node with
  | Directory files =>
      results <- mapM (fun entry =>
          let '(file, info) := entry in
          let filePath := path_join validationRulesDir file in
          emit (EStat filePath) ;;;
          match info with
          | StatFails cause => ret (Rejected (VError cause))
          | Directory _ | Unlistable _ =>
              match platforms with
              | None => ret (Rejected (VError indexOf_of_undefined))
              | Some platforms =>
                  if notListed platforms file then ret (Fulfilled LFalsy)
                  else
                    r <- loadValidationRules info filePath (Some []) ;;
                    ret (match r with
                         | Fulfilled rules => Fulfilled (LRules rules)
                         | Rejected reason => Rejected reason
                         end)
              end
          | File load =>
              emit (ERequire filePath) ;;;
              match load with
              | Exports e => ret (Fulfilled e)
              | Throws message => ret (Rejected (loadError file message))
              end
          end) files ;;
      validationRules <- consolidate results ;;
      ret (Fulfilled validationRules)
  | Unlistable cause | StatFails cause =>
      ret (Rejected (readError validationRulesDir cause))
  | File _ =>
      ret (Rejected (readError validationRulesDir
                       ("ENOTDIR: not a directory, scandir '"
                        +:+ validationRulesDir +:+ "'")))
  end.

(** ** The rule executor *)

(** The state shared by the completion callbacks of one call of
    [runValidationRules]: the [results] array and, for every rule, the
    deferred pushed on [pendingValidations]. *)
Record Execution := {
  results : list value;
  pendingValidations : list (promise unit)
}.

(** [resolve] and [reject] of a deferred act on a pending one only. *)
Definition settle {A} (index : nat) (s : settlement A) (tasks : list (promise A))
  : list (promise A) :=
  match tasks !! index with
  | Some None => <[index := Some s]> tasks
  | _ => tasks
  end.

(** The completion callback handed to the rule at [index], called with
    [(err, ruleResult)]. *)
Definition completion (index : nat) (args : value * value) (st : Execution)
  : Execution :=
  let '(err, ruleResult) := args in
  if truthy err then
    {| results := results st;
       pendingValidations := settle index (Rejected err) (pendingValidations st) |}
  else
    let results' :=
      match ruleResult with
      | VArray elements => results st ++ elements
      | _ => if truthy ruleResult then results st ++ [ruleResult] else results st
      end in
    {| results := results';
       pendingValidations := settle index (Fulfilled tt) (pendingValidations st) |}.

(** [Q.allSettled(tasks).thenResolve(v)]: fulfilled with [v] once no task
    is pending, whatever the tasks ended with. *)
Definition allSettled_thenResolve {A B} (tasks : list (promise A)) (v : B)
  : promise B :=
  if forallb (fun task => bool_decide (is_Some task)) tasks
  then Some (Fulfilled v) else None.

(** The callback of the rule at [index] completes; [calls] lists what every
    rule passes to its callback. *)
Definition complete (calls : list (value * value)) (st : Execution) (index : nat)
  : Execution :=
  match calls !! index with
  | Some args => completion index args st
  | None => st
  end.

(** The shared state once the callbacks have completed in the order given
    by [order], a list of rule indices.  Under the contract of the rules
    every index occurs once in [order]; an index that is missing stands
    for a rule that never calls back. *)
Definition runCallbacks (order : list nat) (w3cManifestInfo : DocumentInfo)
    (rules : list RuleFunction) : Execution :=
  let calls := (fun validationRule : RuleFunction =>
                  validationRule (content w3cManifestInfo)) <$> rules in
  foldl (complete calls)
        {| results := []; pendingValidations := replicate (length rules) None |}
        order.

(** [runValidationRules(w3cManifestInfo, rules)].  The rules are called in
    turn; their callbacks then complete in the order given by [order]. *)
Definition runValidationRules (order : list nat) (w3cManifestInfo : DocumentInfo)
    (rules : list RuleFunction) : M (promise (list value)) :=
  mapM (fun index => emit (ECallRule index)) (seq 0 (length rules)) ;;;
  let st := runCallbacks order w3cManifestInfo rules in
  ret (allSettled_thenResolve (pendingValidations st) (results st)).

(** ** The coordinator *)

(** A platform module, seen through the promise that its
    [getValidationRules(platforms)] returns. *)
Record PlatformModule := {
  getValidationRules : list string -> promise (list RuleFunction)
}.

(** The completion orders that a call of [validateManifest] depends on. *)
Record Scheduler := {
  commonOrder : list nat;           (* callbacks of the common rules *)
  platformOrder : list nat;         (* the platform pipelines *)
  rulesOrder : nat -> list nat      (* callbacks of the rules of a platform *)
}.

(** The state shared by the platform pipelines: the [allResults] array and
    the promises of [platformTasks]. *)
Record Coordination := {
  allResults : list value;
  platformTasks : list (promise unit)
}.

Section Coordinator.
Context (constants : Constants).
(** [__dirname], and what the file system holds at
    [__dirname/validationRules]. *)
Context (dirname : string) (validationRules : fsnode).
Context (scheduler : Scheduler).

(** The pipeline of the platform at [index] runs to its end: the rules
    it obtained are run and the results are pushed on [allResults].  A
    pipeline ends once, and the calls of its rules are recorded when it
    ends. *)
Definition platformTask (w3cManifestInfo : DocumentInfo)
    (platformModules : list PlatformModule) (platforms : list string)
    (st : Coordination) (index : nat) : M Coordination :=
  match platformModules !! index, platformTasks st !! index with
  | Some platform, Some None =>
      match getValidationRules platform platforms with
      | None => ret st
      | Some (Rejected reason) =>
          ret {| allResults := allResults st;
                 platformTasks := settle index (Rejected reason) (platformTasks st) |}
      | Some (Fulfilled rules) =>
          r <- runValidationRules (rulesOrder scheduler index) w3cManifestInfo rules ;;
          match r with
          | None => ret st
          | Some (Rejected reason) =>
              ret {| allResults := allResults st;
                     platformTasks := settle index (Rejected reason) (platformTasks st) |}
          | Some (Fulfilled results) =>
              ret {| allResults := allResults st ++ results;
                     platformTasks := settle index (Fulfilled tt) (platformTasks st) |}
          end
      end
  | _, _ => ret st
  end.

(** [validateManifest(w3cManifestInfo, platformModules, platforms)];
    [w3cManifestInfo] is [None] when it is missing. *)
Definition validateManifest (w3cManifestInfo : option DocumentInfo)
    (platformModules : list PlatformModule) (platforms : list string)
  : M (promise (list value)) :=
  match w3cManifestInfo with
  | None => ret (Some (Rejected (VError "Manifest content is empty or invalid.")))
  | Some info =>
      match content info with
      | None => ret (Some (Rejected (VError "Manifest content is empty or invalid.")))
      | Some _ =>
          if negb (String.eqb (format info) (BASE_MANIFEST_FORMAT constants)) then
            ret (Some (Rejected
                   (VError "The manifest passed as argument is not a W3C manifest.")))
          else
            let validationRulesDir := path_join dirname "validationRules" in
            (* the platforms argument is not passed *)
            loadedRules <- loadValidationRules validationRules validationRulesDir None ;;
            match loadedRules with
            | Rejected reason => ret (Some (Rejected reason))
            | Fulfilled rules =>
                common <- runValidationRules (commonOrder scheduler) info rules ;;
                match common with
                | None => ret None
                | Some (Rejected reason) => ret (Some (Rejected reason))
                | Some (Fulfilled results) =>
                    mapM (fun _ : PlatformModule => emit (EGetValidationRules platforms))
                         platformModules ;;;
                    st <- foldM (platformTask info platformModules platforms)
                                {| allResults := results;
                                   platformTasks :=
                                     replicate (length platformModules) None |}
                                (platformOrder scheduler) ;;
                    ret (allSettled_thenResolve (platformTasks st) (allResults st))
                end
            end
      end
  end.
End Coordinator.

(** ** Specification vocabulary *)

(** [m] returns [a] and prints [logs], whatever the world it starts in;
    it only adds to the console and to the trace. *)
Definition yields {A} (m : M A) (a : A) (logs : list value) : Prop :=
  exists events, forall w,
    m w = (a, {| console := console w ++ logs; trace := trace w ++ events |}).

(** [info.isDirectory()] for an entry whose [fs.stat] succeeds. *)
Definition isDirectory (info : fsnode) : Prop :=
  match info with
  | Directory _ | Unlistable _ => True
  | StatFails _ | File _ => False
  end.

(** The rules held by a loaded value. *)
Definition rulesOf (e : loaded) : list RuleFunction :=
  match e with
  | LFalsy => []
  | LRule rule => [rule]
  | LRules rules => rules
  end.

(** The rules that a settled entry adds to the list, and what it makes
    the loader print. *)
Definition kept (result : settlement loaded) : list RuleFunction :=
  match result with
  | Fulfilled e => rulesOf e
  | Rejected _ => []
  end.

Definition printed (result : settlement loaded) : list value :=
  match result with
  | Fulfilled _ => []
  | Rejected reason => [reason]
  end.

(** The rules exported by an entry that is a loadable file. *)
Definition exportedRules (entry : string * fsnode) : list RuleFunction :=
  match entry.2 with
  | File (Exports e) => rulesOf e
  | _ => []
  end.

(** The rules of the files that lie directly in a folder. *)
Definition directRules (files : list (string * fsnode)) : list RuleFunction :=
  concat (exportedRules <$> files).

(** The rules of all the files that lie in a folder, at any depth. *)
Fixpoint deepRules (node : fsnode) : list RuleFunction :=
  match node with
  | File (Exports e) => rulesOf e
  | Directory files =>
      concat (map (fun entry => let '(_, info) := entry in deepRules info) files)
  | _ => []
  end.

(** The entry of a file that loads and exports [e]. *)
Definition ruleFile (entry : string * loaded) : string * fsnode :=
  (entry.1, File (Exports entry.2)).

(** How an entry settles when the platform filter is empty. *)
Definition flatOutcome (entry : string * fsnode) : settlement loaded :=
  match entry.2 with
  | StatFails cause => Rejected (VError cause)
  | Directory _ | Unlistable _ => Fulfilled LFalsy
  | File (Exports e) => Fulfilled e
  | File (Throws message) => Rejected (loadError entry.1 message)
  end.

(** How an entry of the folder [dir] settles, in general. *)
Definition entryOutcome (dir : string) (platforms : option (list string))
    (entry : string * fsnode) : settlement loaded :=
  match entry.2, platforms with
  | (Directory _ | Unlistable _), None => Rejected (VError indexOf_of_undefined)
  | Directory sub, Some listed =>
      if notListed listed entry.1 then Fulfilled LFalsy
      else Fulfilled (LRules (concat (kept <$> (flatOutcome <$> sub))))
  | Unlistable cause, Some listed =>
      if notListed listed entry.1 then Fulfilled LFalsy
      else Rejected (readError (path_join dir entry.1) cause)
  | _, _ => flatOutcome entry
  end.

(** What the nested call made for an entry prints. *)
Definition entryLogs (platforms : option (list string)) (entry : string * fsnode)
  : list value :=
  match entry.2, platforms with
  | Directory sub, Some listed =>
      if notListed listed entry.1 then []
      else concat (printed <$> (flatOutcome <$> sub))
  | _, _ => []
  end.

(** What the callback called with [args] appends to the results. *)
Definition contribution (args : value * value) : list value :=
  results (completion 0 args {| results := []; pendingValidations := [] |}).

(** What a completed rule adds to the results, case by case. *)
Inductive contributes : value * value -> list value -> Prop :=
| contributes_error err ruleResult :
    truthy err = true -> contributes (err, ruleResult) []
| contributes_array err elements :
    truthy err = false -> contributes (err, VArray elements) elements
| contributes_single err ruleResult :
    truthy err = false -> (forall elements, ruleResult <> VArray elements) ->
    truthy ruleResult = true -> contributes (err, ruleResult) [ruleResult]
| contributes_nothing err ruleResult :
    truthy err = false -> truthy ruleResult = false ->
    contributes (err, ruleResult) [].

(** ** Sample inputs *)

Definition sampleConstants : Constants :=
  {| BASE_MANIFEST_FORMAT := "w3c";
     levels_warning := "warning";
     manifestMembers_icons := "icons";
     codes_missingImage := "missing-image";
     codes_missingImageGroup := "missing-image-group" |}.

Definition icon (size : Z) : Icon := {| sizes := PNum size |}.

Definition sampleDocument : DocumentInfo :=
  {| content := Some {| icons := Some [icon 16] |}; format := "w3c" |}.

(** Rules completing with a single result, with an array, with an error
    and with nothing. *)
Definition ruleSingle : RuleFunction := fun _ => (undefined, VPrim (PStr "single")).
Definition ruleArray : RuleFunction :=
  fun _ => (undefined, VArray [VPrim (PStr "first"); VPrim (PStr "second")]).
Definition ruleFailing : RuleFunction := fun _ => (VError "rule failed", undefined).
Definition ruleSilent : RuleFunction := fun _ => (undefined, undefined).

(** A rules folder with a common rule, an [android] folder that has a
    nested folder, and an [ios] folder. *)
Definition androidFolder : fsnode :=
  Directory [("a.js", File (Exports (LRule ruleArray)));
             ("nested", Directory [("n.js", File (Exports (LRule ruleFailing)))])].

Definition sampleTree : fsnode :=
  Directory [("common.js", File (Exports (LRule ruleSingle)));
             ("android", androidFolder);
             ("ios", Directory [("i.js", File (Exports (LRule ruleSilent)))])].

(** The rules of two platform modules, and a scheduler under which the
    second platform ends before the first. *)
Definition sampleRules : list RuleFunction :=
  [ruleSingle; ruleArray; ruleFailing; ruleSilent].

Definition samplePlatforms : list PlatformModule :=
  [ {| getValidationRules := fun _ => Some (Fulfilled [ruleArray; ruleFailing]) |};
    {| getValidationRules := fun _ => Some (Fulfilled [ruleSilent; ruleSingle]) |} ].

Definition sampleScheduler : Scheduler :=
  {| commonOrder := [0]; platformOrder := [1; 0]; rulesOrder := fun _ => [1; 0] |}.

(** [m] only adds to the trace, and the calls it adds all satisfy [P]. *)
Definition confined {A} (P : event -> Prop) (m : M A) : Prop :=
  forall w, exists events,
    trace (m w).2 = trace w ++ events /\ Forall P events.

(** The diagnostic of an entry that is a file which does not load. *)
Definition loadFailure (entry : string * fsnode) : option value :=
  match entry.2 with
  | File (Throws message) => Some (loadError entry.1 message)
  | _ => None
  end.

(** A platform pipeline that can end: the rules are refused, or they are
    obtained and the callback of each of them completes once. *)
Definition pipelineEnds (scheduler : Scheduler) (platforms : list string)
    (index : nat) (platform : PlatformModule) : Prop :=
  (exists reason, getValidationRules platform platforms = Some (Rejected reason))
  \/ exists rules,
       getValidationRules platform platforms = Some (Fulfilled rules)
       /\ rulesOrder scheduler index ≡ₚ seq 0 (length rules).

(** What the pipeline of the platform at [index] adds to the report:
    nothing when the rules are refused, and otherwise the results of the
    run of its rules. *)
Definition pipelineAdds (scheduler : Scheduler) (info : DocumentInfo)
    (platformModules : list PlatformModule) (platforms : list string)
    (index : nat) (part : list value) : Prop :=
  exists platform,
    platformModules !! index = Some platform
    /\ ((exists reason, getValidationRules platform platforms = Some (Rejected reason)
                        /\ part = [])
        \/ exists rules,
             getValidationRules platform platforms = Some (Fulfilled rules)
             /\ forall w0,
                  (runValidationRules (rulesOrder scheduler index) info rules w0).1
                  = Some (Fulfilled part)).

(** ** Tactics *)

(** Splits the summaries of a listing along the listing. *)
Ltac split_listing :=
  repeat first [rewrite fmap_app | rewrite fmap_cons | rewrite concat_app];
  cbn [concat].
Ltac split_listing_in H :=
  repeat first [rewrite fmap_app in H | rewrite fmap_cons in H | rewrite concat_app in H];
  cbn [concat] in H.

(** * Properties *)

(** ** The icon rules *)

Section IconRulesFacts.
Context (constants : Constants).

Lemma strict_eq_true (a b : prim) : strict_eq a b = true <-> a = b.
Proof. unfold strict_eq. apply bool_decide_eq_true. Qed.

(** The flag of the inner loop ends as the membership test. *)
Lemma foundIn_elem_of (icons : list Icon) (requiredIcon : prim) :
  foundIn icons requiredIcon = bool_decide (requiredIcon ∈ sizes <$> icons).
Proof.
  unfold foundIn.
  assert (G : forall found,
    foldl (fun found icon =>
             if strict_eq requiredIcon (sizes icon) then true else found)
          found icons
    = found || bool_decide (requiredIcon ∈ sizes <$> icons)).
  { induction icons as [|icon icons IH]; intros found.
    - rewrite fmap_nil, bool_decide_eq_false_2 by apply not_elem_of_nil.
      simpl. by rewrite orb_false_r.
    - rewrite fmap_cons. cbn [foldl]. rewrite IH. destruct (strict_eq requiredIcon (sizes icon)) eqn:E.
      + apply strict_eq_true in E.
        rewrite (bool_decide_eq_true_2 (requiredIcon ∈ _ :: _))
          by (rewrite E; left).
        by rewrite orb_true_r.
      + assert (N : requiredIcon <> sizes icon).
        { intros Heq%strict_eq_true. congruence. }
        f_equal. apply bool_decide_ext. rewrite elem_of_cons. intuition congruence. }
  apply G.
Qed.

(** The outer loop keeps, in order, the required sizes that no icon has. *)
Lemma missingIconsSizes_filter (icons : list Icon) (requiredIconSizes : list prim) :
  missingIconsSizes icons requiredIconSizes
  = filter (fun size => size ∉ sizes <$> icons) requiredIconSizes.
Proof.
  unfold missingIconsSizes.
  assert (G : forall missing,
    foldl (fun missing requiredIcon =>
             if foundIn icons requiredIcon then missing
             else missing ++ [requiredIcon])
          missing requiredIconSizes
    = missing ++ filter (fun size => size ∉ sizes <$> icons) requiredIconSizes).
  { induction requiredIconSizes as [|r rest IH]; intros missing.
    - rewrite filter_nil. simpl. by rewrite app_nil_r.
    - cbn [foldl]. rewrite IH, foundIn_elem_of. case_bool_decide as E.
      + by rewrite filter_cons_False by tauto.
      + rewrite filter_cons_True by done. by rewrite <- app_assoc. }
  apply G.
Qed.

Lemma matchesValid_elem_of (iconSizes : prim) (validIconSizes : list prim) :
  matchesValid iconSizes validIconSizes = true <-> iconSizes ∈ validIconSizes.
Proof.
  induction validIconSizes as [|v rest IH]; simpl.
  - split; [discriminate | by intros ?%elem_of_nil].
  - rewrite elem_of_cons. destruct (strict_eq iconSizes v) eqn:E.
    + apply strict_eq_true in E. tauto.
    + rewrite IH. split; [tauto|]. intros [->|]; [|done].
      rewrite (proj2 (strict_eq_true v v) eq_refl) in E. discriminate.
Qed.

Lemma anyIconMatches_exists (icons : list Icon) (validIconSizes : list prim) :
  anyIconMatches icons validIconSizes = true
  <-> exists icon, icon ∈ icons /\ sizes icon ∈ validIconSizes.
Proof.
  induction icons as [|icon rest IH]; simpl.
  - split; [discriminate|]. intros (? & []%elem_of_nil & _).
  - destruct (matchesValid (sizes icon) validIconSizes) eqn:E.
    + apply matchesValid_elem_of in E. split; [|done].
      intros _. exists icon. split; [left | done].
    + rewrite IH. split.
      * intros (i & Hi & Hv). exists i. split; [by right | done].
      * intros (i & [->|Hi]%elem_of_cons & Hv).
        -- apply matchesValid_elem_of in Hv. congruence.
        -- by exists i.
Qed.
End IconRulesFacts.

(** C8.  The rule [imageValidation] completes exactly once and without an
    error.  For a manifest with no icons (member absent, or an empty list)
    it reports one [missingImage] result whose [data] is all of the
    required sizes.  For a manifest with icons it reports one result whose
    [data] is the required sizes that no icon has, in their order, when
    there is such a size, and it reports nothing when every required size
    is the size of some icon. *)
Theorem imageValidation_reports_missing_sizes
    (constants : Constants) (A : Type) (callback : value -> value -> A)
    (manifestContent : ManifestContent) (description platform level : string)
    (requiredIconSizes : list prim) :
  let run := imageValidation constants manifestContent description platform level
               requiredIconSizes callback in
  let report data :=
    callback undefined
      (VRecord {| description := description; platform := platform; level := level;
                  member := manifestMembers_icons constants;
                  code := codes_missingImage constants;
                  data := data |}) in
  (icons manifestContent = None \/ icons manifestContent = Some [] ->
   run = report requiredIconSizes)
  /\ (forall icons' absent,
        icons manifestContent = Some icons' -> icons' <> [] ->
        absent = filter (fun size => size ∉ sizes <$> icons') requiredIconSizes ->
        (absent <> [] -> run = report absent)
        /\ (absent = [] -> run = callback undefined undefined)).
Proof.
  intros run report. subst run report. unfold imageValidation. split.
  - by intros [-> | ->].
  - intros icons' absent -> Hne ->.
    destruct icons' as [|icon rest]; [done|].
    rewrite missingIconsSizes_filter.
    destruct (filter _ requiredIconSizes) as [|size sizes']; split; done.
Qed.

(** C9.  The rule [imageGroupValidation] completes exactly once and
    without an error.  For a manifest with no icons it reports one
    warning-level [missingImageGroup] result whose [data] is all of the
    valid sizes.  For a manifest with icons it reports nothing when some
    icon has one of the valid sizes, and otherwise it reports one warning
    result carrying the whole list of valid sizes. *)
Theorem imageGroupValidation_reports_missing_group
    (constants : Constants) (A : Type) (callback : value -> value -> A)
    (manifestContent : ManifestContent) (description platform : string)
    (validIconSizes : list prim) :
  let run := imageGroupValidation constants manifestContent description platform
               validIconSizes callback in
  let report :=
    callback undefined
      (VRecord {| description := description; platform := platform;
                  level := levels_warning constants;
                  member := manifestMembers_icons constants;
                  code := codes_missingImageGroup constants;
                  data := validIconSizes |}) in
  (icons manifestContent = None \/ icons manifestContent = Some [] -> run = report)
  /\ (forall icons',
        icons manifestContent = Some icons' -> icons' <> [] ->
        ((exists icon, icon ∈ icons' /\ sizes icon ∈ validIconSizes) ->
         run = callback undefined undefined)
        /\ ((forall icon, icon ∈ icons' -> sizes icon ∉ validIconSizes) ->
            run = report)).
Proof.
  intros run report. subst run report. unfold imageGroupValidation. split.
  - by intros [-> | ->].
  - intros icons' -> Hne. destruct icons' as [|icon rest]; [done|].
    destruct (anyIconMatches (icon :: rest) validIconSizes) eqn:E; split; try done.
    + apply anyIconMatches_exists in E. destruct E as (i & Hi & Hv).
      intros Hall. by destruct (Hall i Hi).
    + intros Hex. apply anyIconMatches_exists in Hex. congruence.
Qed.

(** ** The world monad *)

Lemma yields_ret {A} (a : A) : yields (ret a) a [].
Proof. exists []. intros [c t]. unfold ret. simpl. by rewrite !app_nil_r. Qed.


Lemma yields_bind {A B} (m : M A) (k : A -> M B) a b logs logs' :
    yields m a logs -> yields (k a) b logs' -> yields (bind m k) b (logs ++ logs').
  Proof.
    intros [ev Hm] [ev' Hk]. exists (ev ++ ev'). intros w.
    unfold bind. rewrite Hm, Hk. simpl. by rewrite !app_assoc.
  Qed.

Lemma yields_result {A} (m : M A) a logs w :
    yields m a logs -> (m w).1 = a /\ console (m w).2 = console w ++ logs.
  Proof. intros [ev Hm]. by rewrite Hm. Qed.

Lemma yields_mapM {A B} (f : A -> M B) (F : A -> B) (L : A -> list value) (l : list A) :
    (forall a, a ∈ l -> yields (f a) (F a) (L a)) ->
    yields (mapM f l) (F <$> l) (concat (L <$> l)).
  Proof.
    induction l as [|a l IH]; intros Hf.
    - apply (yields_ret []).
    - cbn [mapM]. rewrite !fmap_cons. cbn [concat].
      eapply yields_bind; [apply Hf; left|].
      rewrite <- (app_nil_r (concat _)).
      eapply yields_bind; [apply IH; intros; apply Hf; by right|].
      apply yields_ret.
  Qed.

Lemma yields_map {A B} (m : M A) (g : A -> B) a logs :
  yields m a logs -> yields (x <- m ;; ret (g x)) (g a) logs.
Proof.
  intros Hm. rewrite <- (app_nil_r logs).
  apply (yields_bind m _ a (g a) logs [] Hm), yields_ret.
Qed.

Lemma yields_emit (e : event) : yields (emit e) tt [].
Proof. exists [e]. intros w. unfold emit. simpl. by rewrite app_nil_r. Qed.

Lemma yields_console_log (v : value) : yields (console_log v) tt [v].
Proof. exists []. intros w. unfold console_log. simpl. by rewrite app_nil_r. Qed.

Lemma yields_then {A} (m : M unit) (k : M A) a logs :
  yields m tt [] -> yields k a logs -> yields (m ;;; k) a logs.
Proof. intros Hm Hk. apply (yields_bind m (fun _ => k) tt a [] logs Hm Hk). Qed.

(** ** The rule loader *)

Lemma yields_consolidate (results : list (settlement loaded)) :
  yields (consolidate results) (concat (kept <$> results)) (concat (printed <$> results)).
Proof.
  unfold consolidate.
  assert (G : forall validationRules,
    yields (foldM (fun validationRules result =>
                     match result with
                     | Fulfilled LFalsy => ret validationRules
                     | Fulfilled (LRules rules) => ret (validationRules ++ rules)
                     | Fulfilled (LRule rule) => ret (validationRules ++ [rule])
                     | Rejected reason => console_log reason ;;; ret validationRules
                     end) validationRules results)
           (validationRules ++ concat (kept <$> results))
           (concat (printed <$> results))).
  { induction results as [|result results IH]; intros acc.
    - cbn [foldM]. rewrite fmap_nil. cbn [concat]. rewrite app_nil_r. apply yields_ret.
    - cbn [foldM]. rewrite !fmap_cons. cbn [concat].
      destruct result as [[|rule|rules]|reason]; cbn [kept printed rulesOf].
      + apply (yields_bind _ _ acc _ [] _ (yields_ret acc)), IH.
      + apply (yields_bind _ _ _ _ [] _ (yields_ret _)).
        rewrite (app_assoc acc [rule]). apply IH.
      + apply (yields_bind _ _ _ _ [] _ (yields_ret _)).
        rewrite (app_assoc acc rules). apply IH.
      + eapply yields_bind; [|apply IH].
        rewrite <- (app_nil_r [reason]).
        eapply yields_bind; [apply yields_console_log | apply yields_ret]. }
  apply (G []).
Qed.

Lemma notListed_nil (file : string) : notListed [] file = true.
Proof. apply bool_decide_eq_true_2, not_elem_of_nil. Qed.

(** How a call on a folder goes, given how the nested calls go. *)
Lemma yields_load_given (files : list (string * fsnode)) (dir : string)
    (platforms : option (list string)) :
  (forall listed file sub,
     platforms = Some listed -> notListed listed file = false ->
     yields (loadValidationRules (Directory sub) (path_join dir file) (Some []))
            (Fulfilled (concat (kept <$> (flatOutcome <$> sub))))
            (concat (printed <$> (flatOutcome <$> sub)))) ->
  yields (loadValidationRules (Directory files) dir platforms)
         (Fulfilled (concat (kept <$> (entryOutcome dir platforms <$> files))))
         (concat (entryLogs platforms <$> files)
          ++ concat (printed <$> (entryOutcome dir platforms <$> files))).
Proof.
  intros Hnested. cbn [loadValidationRules].
  apply yields_then; [apply yields_emit|].
  apply (yields_bind _ _ (entryOutcome dir platforms <$> files) _
           (concat (entryLogs platforms <$> files)) _).
  - apply yields_mapM. intros [file info] _.
    apply yields_then; [apply yields_emit|].
    destruct info as [cause|[message|e]|cause|sub];
      cbv [entryOutcome entryLogs flatOutcome fst snd] in *.
    + destruct platforms; apply yields_ret.
    + apply yields_then; [apply yields_emit|]. destruct platforms; apply yields_ret.
    + apply yields_then; [apply yields_emit|]. destruct platforms; apply yields_ret.
    + destruct platforms as [listed|]; [|apply yields_ret].
      destruct (notListed listed file); [apply yields_ret|].
      cbn [loadValidationRules].
      apply (yields_bind _ _ (Rejected (readError (path_join dir file) cause)) _ [] []);
        [|apply yields_ret].
      apply yields_then; [apply yields_emit | apply yields_ret].
    + destruct platforms as [listed|]; [|apply yields_ret].
      destruct (notListed listed file) eqn:E; [apply yields_ret|].
      exact (yields_map _ _ _ _ (Hnested listed file sub eq_refl E)).
  - rewrite <- (app_nil_r (concat (printed <$> _))).
    eapply yields_bind; [apply yields_consolidate | apply yields_ret].
Qed.

Lemma entryOutcome_flat (dir : string) (entry : string * fsnode) :
  entryOutcome dir (Some []) entry = flatOutcome entry.
Proof.
  unfold entryOutcome, flatOutcome. rewrite notListed_nil.
  by destruct entry as [file [cause|[message|e]|cause|sub]].
Qed.

Lemma entryLogs_flat (files : list (string * fsnode)) :
  concat (entryLogs (Some []) <$> files) = [].
Proof.
  induction files as [|[file info] files IH]; [done|].
  rewrite fmap_cons. cbn [concat]. rewrite IH. unfold entryLogs. cbn [fst snd].
  rewrite notListed_nil. by destruct info.
Qed.

(** With an empty platform filter no folder is entered. *)
Lemma yields_load_flat (files : list (string * fsnode)) (dir : string) :
  yields (loadValidationRules (Directory files) dir (Some []))
         (Fulfilled (concat (kept <$> (flatOutcome <$> files))))
         (concat (printed <$> (flatOutcome <$> files))).
Proof.
  pose proof (yields_load_given files dir (Some [])) as H.
  rewrite entryLogs_flat in H. cbn [app] in H.
  rewrite (list_fmap_ext (entryOutcome dir (Some [])) flatOutcome files) in H
    by (intros; apply entryOutcome_flat).
  apply H. intros listed file sub [= <-]. by rewrite notListed_nil.
Qed.

(** How a call on a folder goes. *)
Lemma yields_load (files : list (string * fsnode)) (dir : string)
    (platforms : option (list string)) :
  yields (loadValidationRules (Directory files) dir platforms)
         (Fulfilled (concat (kept <$> (entryOutcome dir platforms <$> files))))
         (concat (entryLogs platforms <$> files)
          ++ concat (printed <$> (entryOutcome dir platforms <$> files))).
Proof. apply yields_load_given. intros. apply yields_load_flat. Qed.

Lemma kept_flatOutcome (files : list (string * fsnode)) :
  concat (kept <$> (flatOutcome <$> files)) = directRules files.
Proof.
  unfold directRules. rewrite <- list_fmap_compose. f_equal.
  apply list_fmap_ext. intros _ [file [cause|[message|e]|cause|sub]] _; done.
Qed.

(** A folder that is not requested counts for nothing. *)
Lemma skipped_entry (dir file : string) (info : fsnode) (platforms : list string) :
  isDirectory info -> file ∉ platforms ->
  entryOutcome dir (Some platforms) (file, info) = Fulfilled LFalsy
  /\ entryLogs (Some platforms) (file, info) = [].
Proof.
  intros Hdir Hfile. unfold entryOutcome, entryLogs, notListed. cbn [fst snd].
  rewrite bool_decide_eq_true_2 by done. by destruct info.
Qed.

(** A requested folder counts for the files that lie directly in it. *)
Lemma entered_entry (dir file : string) (sub : list (string * fsnode))
    (platforms : list string) :
  file ∈ platforms ->
  entryOutcome dir (Some platforms) (file, Directory sub)
  = Fulfilled (LRules (directRules sub)).
Proof.
  intros Hfile. unfold entryOutcome, notListed. cbn [fst snd].
  rewrite bool_decide_eq_false_2 by (intros H; by apply H).
  by rewrite kept_flatOutcome.
Qed.

(** Files that load count for their exports and print nothing. *)
Lemma ruleFiles_summary (dir : string) (platforms : option (list string))
    (l : list (string * loaded)) :
  concat (kept <$> (entryOutcome dir platforms <$> (ruleFile <$> l)))
  = concat ((fun entry => rulesOf entry.2) <$> l)
  /\ concat (printed <$> (entryOutcome dir platforms <$> (ruleFile <$> l))) = []
  /\ concat (entryLogs platforms <$> (ruleFile <$> l)) = [].
Proof.
  induction l as [|[name e] l (IH1 & IH2 & IH3)]; [done|].
  rewrite !fmap_cons. cbn [concat]. rewrite IH1, IH2, IH3.
  unfold ruleFile, entryOutcome, entryLogs, flatOutcome. cbn [fst snd].
  by destruct platforms.
Qed.

(** C7.  When the rules folder cannot be listed, [loadValidationRules]
    ends rejected, whatever the platforms; the reason is an error whose
    message holds the path of the folder and the message of the cause.
    No rule list is returned and nothing is printed. *)
Theorem loadValidationRules_unlistable_folder
    (validationRulesDir cause : string) (platforms : option (list string))
    (w : World) :
  loadValidationRules (Unlistable cause) validationRulesDir platforms w
  = (Rejected
       (VError ("Failed to read validation rules from the specified folder: '"
                +:+ validationRulesDir +:+ "'. " +:+ cause +:+ ".")),
     {| console := console w; trace := trace w ++ [EReaddir validationRulesDir] |}).
Proof. reflexivity. Qed.

(** C6.  In a folder that holds files only, of which one cannot be loaded
    and the others load, [loadValidationRules] ends fulfilled with the
    rules exported by the others, in the order of the listing, and prints
    one diagnostic, the one of the file that failed.  When each of the N
    other files exports one rule, the list has N rules. *)
Theorem loadValidationRules_one_unloadable_file
    (before after : list (string * loaded)) (file message dir : string)
    (platforms : option (list string)) (w : World) :
  let files := (ruleFile <$> before) ++ (file, File (Throws message))
                 :: (ruleFile <$> after) in
  let run := loadValidationRules (Directory files) dir platforms w in
  exists rules,
    run.1 = Fulfilled rules
    /\ rules = concat ((fun entry => rulesOf entry.2) <$> (before ++ after))
    /\ console run.2
       = console w ++ [VError ("Failed to load validation rule from file: '"
                               +:+ file +:+ "'. " +:+ message +:+ ".")]
    /\ (Forall (fun entry => exists rule, entry.2 = LRule rule) (before ++ after) ->
        length rules = length (before ++ after)).
Proof.
  intros files run.
  destruct (yields_result _ _ _ w (yields_load files dir platforms)) as [Hr Hc].
  fold run in Hr, Hc. subst files.
  split_listing_in Hr. split_listing_in Hc.
  destruct (ruleFiles_summary dir platforms before) as (B1 & B2 & B3).
  destruct (ruleFiles_summary dir platforms after) as (A1 & A2 & A3).
  rewrite B1, A1 in Hr. rewrite B2, B3, A2, A3 in Hc.
  assert (Hout : entryOutcome dir platforms (file, File (Throws message))
                 = Rejected (loadError file message)) by (by destruct platforms).
  assert (Hlog : entryLogs platforms (file, File (Throws message)) = [])
    by (by destruct platforms).
  rewrite Hout in Hr, Hc. rewrite Hlog in Hc. cbn [kept printed app] in Hr, Hc.
  eexists. split; [exact Hr|]. split; [by rewrite fmap_app, concat_app|].
  split; [by rewrite Hc|].
  rewrite <- concat_app, <- fmap_app. generalize (before ++ after). intros l Hl.
  induction Hl as [|[name e] l (rule & He) _ IH]; [done|].
  cbn [snd] in He. subst e. rewrite fmap_cons. cbn [concat snd rulesOf app length].
  by rewrite IH.
Qed.

(** C5.  A subfolder of the rules folder whose name is not among the
    requested platforms is left out: the call returns the rules, and
    prints the diagnostics, that it returns and prints for the same folder
    without that subfolder. *)
Theorem loadValidationRules_skips_other_platforms
    (before after : list (string * fsnode)) (file : string) (info : fsnode)
    (dir : string) (platforms : list string) (w : World) :
  isDirectory info -> file ∉ platforms ->
  let full := loadValidationRules (Directory (before ++ (file, info) :: after))
                dir (Some platforms) w in
  let without := loadValidationRules (Directory (before ++ after))
                   dir (Some platforms) w in
  full.1 = without.1 /\ console full.2 = console without.2.
Proof.
  intros Hdir Hfile full without.
  destruct (yields_result _ _ _ w
              (yields_load (before ++ (file, info) :: after) dir (Some platforms)))
    as [Hr Hc].
  destruct (yields_result _ _ _ w (yields_load (before ++ after) dir (Some platforms)))
    as [Hr' Hc'].
  fold full in Hr, Hc. fold without in Hr', Hc'.
  rewrite Hr, Hr', Hc, Hc'.
  split_listing.
  destruct (skipped_entry dir file info platforms Hdir Hfile) as [-> ->].
  done.
Qed.

(** C4, as the code has it.  A subfolder whose name is among the requested
    platforms is entered with an empty platform filter.  It adds, at its
    place in the listing, the rules exported by the files that lie
    directly in it; the folders nested in it are left out, since no name
    is in the empty filter. *)
Theorem loadValidationRules_enters_one_level
    (before after sub : list (string * fsnode)) (file dir : string)
    (platforms : list string) (w : World) :
  file ∈ platforms ->
  exists pre post,
    (loadValidationRules (Directory before) dir (Some platforms) w).1 = Fulfilled pre
    /\ (loadValidationRules (Directory after) dir (Some platforms) w).1 = Fulfilled post
    /\ (loadValidationRules (Directory (before ++ (file, Directory sub) :: after))
          dir (Some platforms) w).1
       = Fulfilled (pre ++ directRules sub ++ post)
    /\ (loadValidationRules (Directory sub) (path_join dir file) (Some []) w).1
       = Fulfilled (directRules sub).
Proof.
  intros Hfile.
  destruct (yields_result _ _ _ w (yields_load before dir (Some platforms))) as [H1 _].
  destruct (yields_result _ _ _ w (yields_load after dir (Some platforms))) as [H2 _].
  destruct (yields_result _ _ _ w
              (yields_load (before ++ (file, Directory sub) :: after) dir (Some platforms)))
    as [H3 _].
  destruct (yields_result _ _ _ w (yields_load_flat sub (path_join dir file))) as [H4 _].
  eexists _, _. split; [exact H1|]. split; [exact H2|]. split.
  - rewrite H3. split_listing.
    by rewrite (entered_entry dir file sub platforms Hfile).
  - by rewrite H4, kept_flatOutcome.
Qed.

(** ** The rule executor *)

Lemma completion_results (index : nat) (args : value * value) (st : Execution) :
  results (completion index args st) = results st ++ contribution args.
Proof.
  unfold contribution, completion. destruct args as [err ruleResult].
  destruct (truthy err); cbn [results]; [by rewrite app_nil_r|].
  destruct ruleResult; try done;
    destruct (truthy _); cbn [app]; by rewrite ?app_nil_r.
Qed.

Lemma completion_pending (index : nat) (args : value * value) (st : Execution) :
  exists s, pendingValidations (completion index args st)
            = settle index s (pendingValidations st).
Proof.
  unfold completion. destruct args as [err ruleResult].
  destruct (truthy err); eexists; reflexivity.
Qed.

(** The function agrees with the case-by-case description. *)
Lemma contribution_contributes (args : value * value) :
  contributes args (contribution args).
Proof.
  destruct args as [err ruleResult]. unfold contribution, completion.
  destruct (truthy err) eqn:Eerr; cbn [results app].
  - by constructor.
  - destruct ruleResult as [p|message|r|elements].
    + destruct (truthy (VPrim p)) eqn:E; cbn [app].
      * by apply contributes_single.
      * by apply contributes_nothing.
    + by apply contributes_single.
    + by apply contributes_single.
    + by apply contributes_array.
Qed.

Section Deferreds.
Context {A : Type}.
Implicit Types (tasks : list (promise A)) (s : settlement A).

Lemma length_settle index s tasks : length (settle index s tasks) = length tasks.
Proof.
  unfold settle. destruct (tasks !! index) as [[|]|]; try done.
  apply length_insert.
Qed.

Lemma settle_settles index s tasks :
  index < length tasks -> exists s', settle index s tasks !! index = Some (Some s').
Proof.
  intros Hlt. unfold settle.
  destruct (tasks !! index) as [[s'|]|] eqn:E.
  - by exists s'.
  - exists s. by apply list_lookup_insert_eq.
  - apply lookup_ge_None in E. unfold promise in *. lia.
Qed.

Lemma settle_keeps index s tasks j s' :
  tasks !! j = Some (Some s') -> settle index s tasks !! j = Some (Some s').
Proof.
  intros Hj. unfold settle. destruct (tasks !! index) as [[|]|] eqn:E; try done.
  destruct (decide (index = j)) as [->|Hne]; [congruence|].
  by rewrite list_lookup_insert_ne.
Qed.

Lemma allSettled_all {B} tasks (v : B) :
  (forall index, index < length tasks -> exists s, tasks !! index = Some (Some s)) ->
  allSettled_thenResolve tasks v = Some (Fulfilled v).
Proof.
  intros Hall. unfold allSettled_thenResolve, promise in *.
  assert (H : forallb (fun task => bool_decide (is_Some task)) tasks = true);
    [|by rewrite H].
  apply forallb_forall. intros task Hin.
  apply list_elem_of_In, list_elem_of_lookup in Hin. destruct Hin as [index Hi].
  destruct (Hall index) as [s Hs]; [by eapply lookup_lt_Some|].
  apply bool_decide_eq_true_2. rewrite Hi in Hs. injection Hs as ->. by eexists.
Qed.

Lemma allSettled_not_rejected {B} tasks (v : B) reason :
  allSettled_thenResolve tasks v <> Some (Rejected reason).
Proof. unfold allSettled_thenResolve. by destruct (forallb _ _). Qed.
End Deferreds.

Section Callbacks.
Context (calls : list (value * value)).

Lemma callbacks_results (order : list nat) (st : Execution) :
  results (foldl (complete calls) st order)
  = results st ++ concat (contribution <$> omap (fun index => calls !! index) order).
Proof.
  revert st. induction order as [|index order IH]; intros st.
  - simpl. by rewrite app_nil_r.
  - cbn [foldl omap list_omap]. rewrite IH. unfold complete.
    destruct (calls !! index) as [args|]; [|done].
    rewrite completion_results, fmap_cons. cbn [concat].
    by rewrite app_assoc.
Qed.

Lemma callbacks_length (order : list nat) (st : Execution) :
  length (pendingValidations (foldl (complete calls) st order))
  = length (pendingValidations st).
Proof.
  revert st. induction order as [|index order IH]; intros st; [done|].
  cbn [foldl]. rewrite IH. unfold complete.
  destruct (calls !! index) as [args|]; [|done].
  destruct (completion_pending index args st) as [s ->]. apply length_settle.
Qed.

Lemma callbacks_keep (order : list nat) (st : Execution) j s :
  pendingValidations st !! j = Some (Some s) ->
  pendingValidations (foldl (complete calls) st order) !! j = Some (Some s).
Proof.
  revert st. induction order as [|index order IH]; intros st Hj; [done|].
  cbn [foldl]. apply IH. unfold complete.
  destruct (calls !! index) as [args|]; [|done].
  destruct (completion_pending index args st) as [s' ->]. by apply settle_keeps.
Qed.

(** A rule whose callback completed has its task settled. *)
Lemma callbacks_settle (order : list nat) (st : Execution) j :
  length (pendingValidations st) = length calls ->
  j ∈ order -> j < length calls ->
  exists s, pendingValidations (foldl (complete calls) st order) !! j = Some (Some s).
Proof.
  revert st. induction order as [|index order IH]; intros st Hlen Hin Hlt.
  - by apply elem_of_nil in Hin.
  - cbn [foldl].
    assert (Hlen' : length (pendingValidations (complete calls st index))
                    = length calls).
    { rewrite <- Hlen. apply (callbacks_length [index] st). }
    apply elem_of_cons in Hin. destruct Hin as [->|Hin]; [|by apply IH].
    destruct (lookup_lt_is_Some_2 calls index Hlt) as [args Hargs].
    assert (exists s, pendingValidations (complete calls st index) !! index
                      = Some (Some s)) as [s Hs].
    { unfold complete. rewrite Hargs.
      destruct (completion_pending index args st) as [s' ->].
      apply settle_settles. by rewrite Hlen. }
    exists s. by apply callbacks_keep.
Qed.

Lemma completed_calls (order : list nat) :
  (forall index, index ∈ order -> index < length calls) ->
  Forall2 (fun index args => calls !! index = Some args) order
          (omap (fun index => calls !! index) order).
Proof.
  induction order as [|index order IH]; intros Hlt; [constructor|].
  cbn [omap list_omap].
  destruct (lookup_lt_is_Some_2 calls index) as [args Hargs]; [apply Hlt; left|].
  rewrite Hargs. constructor; [done|]. apply IH. intros. apply Hlt. by right.
Qed.
End Callbacks.

Lemma yields_emits {A} (g : A -> event) (l : list A) :
  yields (mapM (fun a => emit (g a)) l) ((fun _ => tt) <$> l) [].
Proof.
  induction l as [|a l IH]; [apply (yields_ret [])|].
  cbn [mapM]. rewrite fmap_cons.
  apply (yields_bind _ _ tt _ [] [] (yields_emit _)).
  apply (yields_bind _ _ _ _ [] [] IH), yields_ret.
Qed.

(** The executor prints nothing, and what it returns does not depend on
    the world. *)
Lemma yields_runValidationRules (order : list nat) (info : DocumentInfo)
    (rules : list RuleFunction) :
  yields (runValidationRules order info rules)
         (allSettled_thenResolve
            (pendingValidations (runCallbacks order info rules))
            (results (runCallbacks order info rules)))
         [].
Proof.
  unfold runValidationRules.
  apply (yields_bind _ _ _ _ [] [] (yields_emits _ _)), yields_ret.
Qed.

Lemma settle_other {A} (index : nat) (s : settlement A) (tasks : list (promise A))
    (j : nat) :
  index <> j -> settle index s tasks !! j = tasks !! j.
Proof.
  intros Hne. unfold settle. destruct (tasks !! index) as [[|]|]; try done.
  by apply list_lookup_insert_ne.
Qed.

Lemma allSettled_pending {A B} (tasks : list (promise A)) (v : B) (index : nat) :
  tasks !! index = Some None -> allSettled_thenResolve tasks v = None.
Proof.
  intros Hi. unfold allSettled_thenResolve, promise in *.
  destruct (forallb (fun task => bool_decide (is_Some task)) tasks) eqn:E; [|done].
  rewrite forallb_forall in E.
  assert (Hin : In (None : option (settlement A)) tasks)
    by (apply list_elem_of_In, list_elem_of_lookup; by exists index).
  specialize (E _ Hin). apply bool_decide_eq_true in E. by destruct E.
Qed.

(** The task of a rule whose callback does not complete stays as it is. *)
Lemma callbacks_untouched (calls : list (value * value)) (order : list nat)
    (st : Execution) (j : nat) :
  j ∉ order ->
  pendingValidations (foldl (complete calls) st order) !! j
  = pendingValidations st !! j.
Proof.
  revert st. induction order as [|index order IH]; intros st Hj; [done|].
  apply not_elem_of_cons in Hj. destruct Hj as [Hne Hj].
  cbn [foldl]. rewrite IH by done. unfold complete.
  destruct (calls !! index) as [args|]; [|done].
  destruct (completion_pending index args st) as [s ->].
  apply settle_other. congruence.
Qed.

(** C1.  [runValidationRules] waits for every rule.  When the callback of
    every rule completes once, in whatever order, the call ends fulfilled
    with the accumulated list: the concatenation, in the order of
    completion, of what each completion adds.  A completion with an array
    adds its elements, one with a single truthy result adds that result,
    one with no result adds nothing, and one with an error adds nothing;
    an error does not make the call end rejected and nothing is printed.
    As long as the callback of some rule has not completed, the call has
    not ended. *)
Theorem runValidationRules_resolves_with_accumulated_results
    (order : list nat) (w3cManifestInfo : DocumentInfo)
    (rules : list RuleFunction) (w : World) :
  let calls := (fun rule : RuleFunction => rule (content w3cManifestInfo)) <$> rules in
  let run := runValidationRules order w3cManifestInfo rules w in
  (order ≡ₚ seq 0 (length rules) ->
   exists completed parts,
     Forall2 (fun index args => calls !! index = Some args) order completed
     /\ Forall2 contributes completed parts
     /\ run.1 = Some (Fulfilled (concat parts))
     /\ console run.2 = console w)
  /\ (forall index, index < length rules -> index ∉ order -> run.1 = None).
Proof.
  intros calls run.
  destruct (yields_result _ _ _ w (yields_runValidationRules order w3cManifestInfo rules))
    as [Hr Hc].
  fold run in Hr, Hc. split.
  - intros Hperm.
    assert (Hlen : length calls = length rules) by apply length_fmap.
    assert (Hvalid : forall index, index ∈ order -> index < length calls).
    { intros index Hin. rewrite Hperm in Hin. apply elem_of_seq in Hin. lia. }
    exists (omap (fun index => calls !! index) order),
           (contribution <$> omap (fun index => calls !! index) order).
    split; [by apply completed_calls|]. split.
    { apply Forall2_fmap_r, Forall_Forall2_diag, Forall_forall.
      intros args _. apply contribution_contributes. }
    split; [|by rewrite Hc, app_nil_r].
    rewrite Hr. unfold runCallbacks. fold calls.
    rewrite callbacks_results. cbn [results app].
    apply allSettled_all. intros index Hlt.
    rewrite callbacks_length in Hlt. cbn [pendingValidations] in Hlt.
    rewrite length_replicate in Hlt.
    apply callbacks_settle.
    + cbn [pendingValidations]. by rewrite length_replicate.
    + rewrite Hperm. apply elem_of_seq. lia.
    + lia.
  - intros index Hlt Hout. rewrite Hr.
    apply (allSettled_pending _ _ index).
    unfold runCallbacks. rewrite callbacks_untouched by done.
    cbn [pendingValidations]. by apply lookup_replicate_2.
Qed.

(** ** The coordinator *)

(** C2.  [validateManifest] ends rejected with the empty-document error
    when the document information or its content is missing, and with the
    format error when the content is there and the format is not the base
    format.  In both cases the world is left as it was: the rules folder
    is not read, no module is loaded, no platform is asked for its rules
    and no rule is called. *)
Theorem validateManifest_preconditions
    (constants : Constants) (dirname : string) (validationRules : fsnode)
    (scheduler : Scheduler) (w3cManifestInfo : option DocumentInfo)
    (platformModules : list PlatformModule) (platforms : list string) (w : World) :
  let run := validateManifest constants dirname validationRules scheduler
               w3cManifestInfo platformModules platforms w in
  (w3cManifestInfo = None
   \/ (exists info, w3cManifestInfo = Some info /\ content info = None) ->
   run = (Some (Rejected (VError "Manifest content is empty or invalid.")), w))
  /\ (forall info manifestContent,
        w3cManifestInfo = Some info -> content info = Some manifestContent ->
        format info <> BASE_MANIFEST_FORMAT constants ->
        run = (Some (Rejected
                 (VError "The manifest passed as argument is not a W3C manifest.")),
               w)).
Proof.
  intros run. subst run. unfold validateManifest. split.
  - intros [-> | (info & -> & ->)]; reflexivity.
  - intros info manifestContent -> -> Hformat.
    apply String.eqb_neq in Hformat. by rewrite Hformat.
Qed.

(** What one platform pipeline does to the merged list: nothing, or it
    appends the results of running the rules of that platform. *)
Lemma platformTask_appends (scheduler : Scheduler) (info : DocumentInfo)
    (platformModules : list PlatformModule) (platforms : list string)
    (st : Coordination) (index : nat) (w : World) :
  let st' := (platformTask scheduler info platformModules platforms st index w).1 in
  allResults st' = allResults st
  \/ exists platform rules results,
       platformModules !! index = Some platform
       /\ getValidationRules platform platforms = Some (Fulfilled rules)
       /\ (forall w0, (runValidationRules (rulesOrder scheduler index) info rules w0).1
                      = Some (Fulfilled results))
       /\ allResults st' = allResults st ++ results.
Proof.
  unfold platformTask.
  destruct (platformModules !! index) as [platform|] eqn:Hp; [|by left].
  destruct (platformTasks st !! index) as [[?|]|]; try by left.
  destruct (getValidationRules platform platforms) as [[rules|reason]|] eqn:Hg;
    try by left.
  destruct (yields_runValidationRules (rulesOrder scheduler index) info rules)
    as [events Hrun].
  unfold bind. rewrite Hrun.
  destruct (allSettled_thenResolve _ _) as [[results|reason]|] eqn:Hres;
    try by left.
  right. exists platform, rules, results. repeat split; try done.
  intros w0. by rewrite Hrun.
Qed.

Lemma platformTasks_append (scheduler : Scheduler) (info : DocumentInfo)
    (platformModules : list PlatformModule) (platforms : list string)
    (order : list nat) (st : Coordination) (w : World) :
  exists parts,
    allResults (foldM (platformTask scheduler info platformModules platforms)
                      st order w).1
    = allResults st ++ concat parts
    /\ Forall (fun results =>
                 exists index platform rules,
                   platformModules !! index = Some platform
                   /\ getValidationRules platform platforms = Some (Fulfilled rules)
                   /\ forall w0,
                        (runValidationRules (rulesOrder scheduler index) info rules w0).1
                        = Some (Fulfilled results))
              parts.
Proof.
  revert st w. induction order as [|index order IH]; intros st w.
  - exists []. split; [by rewrite app_nil_r | constructor].
  - cbn [foldM]. unfold bind.
    pose proof (platformTask_appends scheduler info platformModules platforms st index w)
      as Hstep.
    destruct (platformTask scheduler info platformModules platforms st index w)
      as [st' w'].
    cbn [fst] in Hstep. destruct (IH st' w') as (parts & Hparts & Hall).
    destruct Hstep as [Hsame | (platform & rules & results & Hp & Hg & Hrun & Happ)].
    + exists parts. by rewrite Hparts, Hsame.
    + exists (results :: parts). split.
      * rewrite Hparts, Happ. cbn [concat]. by rewrite app_assoc.
      * constructor; [|done]. by exists index, platform, rules.
Qed.

(** C10.  In a report returned by [validateManifest], the results of the
    common rules come first, as one block, and all the results of the
    platforms come after them: the report is the list returned by the run
    of the common rules followed by the lists returned by the runs of
    platform rules, in the order in which the platform pipelines ended. *)
Theorem validateManifest_common_results_first
    (constants : Constants) (dirname : string) (validationRules : fsnode)
    (scheduler : Scheduler) (w3cManifestInfo : option DocumentInfo)
    (platformModules : list PlatformModule) (platforms : list string)
    (w w' : World) (report : list value) :
  validateManifest constants dirname validationRules scheduler
    w3cManifestInfo platformModules platforms w = (Some (Fulfilled report), w') ->
  exists info rules common platformResults,
    w3cManifestInfo = Some info
    /\ (loadValidationRules validationRules (path_join dirname "validationRules")
          None w).1 = Fulfilled rules
    /\ (forall w0, (runValidationRules (commonOrder scheduler) info rules w0).1
                   = Some (Fulfilled common))
    /\ report = common ++ concat platformResults
    /\ Forall (fun results =>
                 exists index platform rules',
                   platformModules !! index = Some platform
                   /\ getValidationRules platform platforms = Some (Fulfilled rules')
                   /\ forall w0,
                        (runValidationRules (rulesOrder scheduler index) info rules' w0).1
                        = Some (Fulfilled results))
              platformResults.
Proof.
  unfold validateManifest. intros H.
  destruct w3cManifestInfo as [info|]; [|discriminate].
  destruct (content info); [|discriminate].
  destruct (negb _); [discriminate|].
  unfold bind at 1 in H.
  destruct (loadValidationRules validationRules _ None w) as [[rules|reason] w1]
    eqn:Hload; [|discriminate].
  destruct (yields_runValidationRules (commonOrder scheduler) info rules)
    as [events Hrun].
  unfold bind at 1 in H. rewrite Hrun in H.
  destruct (allSettled_thenResolve _ _) as [[common|reason]|] eqn:Hcommon;
    try discriminate.
  destruct (yields_emits (fun _ : PlatformModule => EGetValidationRules platforms)
              platformModules) as [events' Hemits].
  unfold bind at 1 in H. rewrite Hemits in H.
  unfold bind at 1 in H.
  match type of H with
  | context [foldM ?f ?st ?order ?w2] =>
      destruct (platformTasks_append scheduler info platformModules platforms
                  order st w2) as (parts & Hparts & Hall);
      destruct (foldM f st order w2) as [st' w3]
  end.
  cbn [fst allResults] in Hparts. unfold ret, allSettled_thenResolve in H.
  destruct (forallb _ _); [|discriminate].
  injection H as Hreport _.
  exists info, rules, common, parts. repeat split; try done.
  - intros w0. by rewrite Hrun.
  - by rewrite <- Hreport, Hparts.
Qed.

(** C3.  [validateManifest] calls [loadValidationRules] without the
    platform list.  On a rules folder that has an [android] subfolder and
    with [android] requested, the loader called with the platform list
    returns the rule of that subfolder; the coordinator does not run it:
    the subfolder entries end with a [TypeError] that is printed, and only
    the common rule contributes to the report. *)
Theorem validateManifest_drops_platform_filter :
  let dir := path_join "lib" "validationRules" in
  let scheduler := {| commonOrder := [0]; platformOrder := [];
                      rulesOrder := fun _ => [] |} in
  let run := validateManifest sampleConstants "lib" sampleTree scheduler
               (Some sampleDocument) [] ["android"] emptyWorld in
  (loadValidationRules sampleTree dir (Some ["android"]) emptyWorld).1
  = Fulfilled [ruleSingle; ruleArray]
  /\ (loadValidationRules sampleTree dir None emptyWorld).1 = Fulfilled [ruleSingle]
  /\ run.1 = Some (Fulfilled [VPrim (PStr "single")])
  /\ console run.2 = [VError indexOf_of_undefined; VError indexOf_of_undefined].
Proof. repeat split; reflexivity. Qed.

Lemma ruleFailing_not_loaded : ruleFailing ∉ [ruleSingle; ruleArray].
Proof.
  intros Hin. repeat (apply elem_of_cons in Hin; destruct Hin as [Heq|Hin]);
    [| |by apply elem_of_nil in Hin];
    apply (f_equal (fun rule : RuleFunction => rule None)) in Heq; discriminate.
Qed.

(** C4, as stated, fails: the rule of the folder nested in the requested
    [android] folder is not loaded. *)
Lemma nested_folder_is_not_loaded :
  ~ (forall (files : list (string * fsnode)) (dir : string)
            (platforms : list string) (file : string)
            (sub : list (string * fsnode)) (w : World),
       (file, Directory sub) ∈ files -> file ∈ platforms ->
       exists rules,
         (loadValidationRules (Directory files) dir (Some platforms) w).1
         = Fulfilled rules
         /\ forall rule, rule ∈ deepRules (Directory sub) -> rule ∈ rules).
Proof.
  intros Hclaim.
  destruct (Hclaim [("common.js", File (Exports (LRule ruleSingle)));
                    ("android", androidFolder);
                    ("ios", Directory [("i.js", File (Exports (LRule ruleSilent)))])]
                   "rules" ["android"] "android"
                   [("a.js", File (Exports (LRule ruleArray)));
                    ("nested", Directory [("n.js", File (Exports (LRule ruleFailing)))])]
                   emptyWorld)
    as (rules & Hrules & Hall).
  - right. left.
  - left.
  - vm_compute in Hrules. injection Hrules as <-.
    apply ruleFailing_not_loaded, Hall. right. left.
Qed.

(** Without the platform list only the files that lie directly in the
    folder are loaded, whatever the folder holds. *)
Lemma loadValidationRules_without_platforms
    (files : list (string * fsnode)) (dir : string) (w : World) :
  (loadValidationRules (Directory files) dir None w).1 = Fulfilled (directRules files).
Proof.
  destruct (yields_result _ _ _ w (yields_load files dir None)) as [-> _].
  f_equal. unfold directRules. rewrite <- list_fmap_compose. f_equal.
  apply list_fmap_ext. intros _ [file [cause|[message|e]|cause|sub]] _; done.
Qed.

(** Requesting [android] on a tree with an [android] and an [ios] folder
    gives the common rule and the rule of the [android] folder. *)
Example loadValidationRules_android_only :
  (loadValidationRules sampleTree "rules" (Some ["android"]) emptyWorld).1
  = Fulfilled [ruleSingle; ruleArray].
Proof. reflexivity. Qed.

(** ** Instances *)

(** Four rules that complete in the order 2, 0, 3, 1, and the same rules
    when the third never calls back. *)
Lemma runValidationRules_resolves_with_accumulated_results_witness :
  [2; 0; 3; 1] ≡ₚ seq 0 (length sampleRules)
  /\ (exists completed parts,
        Forall2 (fun index args =>
                   ((fun rule : RuleFunction => rule (content sampleDocument))
                      <$> sampleRules) !! index = Some args)
                [2; 0; 3; 1] completed
        /\ Forall2 contributes completed parts
        /\ (runValidationRules [2; 0; 3; 1] sampleDocument sampleRules emptyWorld).1
           = Some (Fulfilled (concat parts))
        /\ console (runValidationRules [2; 0; 3; 1] sampleDocument sampleRules
                      emptyWorld).2
           = console emptyWorld)
  /\ 2 < length sampleRules
  /\ (2 ∉ [0; 3; 1])
  /\ (runValidationRules [0; 3; 1] sampleDocument sampleRules emptyWorld).1 = None.
Proof.
  assert (H : [2; 0; 3; 1] ≡ₚ seq 0 (length sampleRules))
    by (apply (bool_decide_unpack _); vm_compute; exact I).
  assert (H1 : 2 < length sampleRules) by (vm_compute; lia).
  assert (H2 : 2 ∉ [0; 3; 1]) by (apply (bool_decide_unpack _); vm_compute; exact I).
  split; [exact H|]. split.
  - exact (proj1 (runValidationRules_resolves_with_accumulated_results
                    [2; 0; 3; 1] sampleDocument sampleRules emptyWorld) H).
  - split; [exact H1|]. split; [exact H2|].
    exact (proj2 (runValidationRules_resolves_with_accumulated_results
                    [0; 3; 1] sampleDocument sampleRules emptyWorld) 2 H1 H2).
Defined.

(** A document without content, and a document of another format. *)
Lemma validateManifest_preconditions_witness :
  validateManifest sampleConstants "lib" sampleTree sampleScheduler
    (Some {| content := None; format := "w3c" |}) samplePlatforms ["android"] emptyWorld
  = (Some (Rejected (VError "Manifest content is empty or invalid.")), emptyWorld)
  /\ validateManifest sampleConstants "lib" sampleTree sampleScheduler
       (Some {| content := content sampleDocument; format := "cordova" |})
       samplePlatforms ["android"] emptyWorld
     = (Some (Rejected
          (VError "The manifest passed as argument is not a W3C manifest.")),
        emptyWorld).
Proof.
  split.
  - apply (validateManifest_preconditions sampleConstants "lib" sampleTree
             sampleScheduler _ samplePlatforms ["android"] emptyWorld).
    right. eexists. split; reflexivity.
  - eapply (validateManifest_preconditions sampleConstants "lib" sampleTree
              sampleScheduler _ samplePlatforms ["android"] emptyWorld);
      [reflexivity | reflexivity | discriminate].
Defined.

(** The [android] folder, requested, between a common rule and the [ios]
    folder. *)
Lemma loadValidationRules_enters_one_level_witness :
  "android" ∈ ["android"; "windows"]
  /\ exists pre post,
       (loadValidationRules
          (Directory [("common.js", File (Exports (LRule ruleSingle)))])
          "rules" (Some ["android"; "windows"]) emptyWorld).1 = Fulfilled pre
       /\ (loadValidationRules
             (Directory [("ios", Directory [("i.js", File (Exports (LRule ruleSilent)))])])
             "rules" (Some ["android"; "windows"]) emptyWorld).1 = Fulfilled post
       /\ (loadValidationRules
             (Directory
                ([("common.js", File (Exports (LRule ruleSingle)))]
                 ++ ("android",
                     Directory
                       [("a.js", File (Exports (LRule ruleArray)));
                        ("nested",
                         Directory [("n.js", File (Exports (LRule ruleFailing)))])])
                 :: [("ios", Directory [("i.js", File (Exports (LRule ruleSilent)))])]))
             "rules" (Some ["android"; "windows"]) emptyWorld).1
          = Fulfilled
              (pre
               ++ directRules
                    [("a.js", File (Exports (LRule ruleArray)));
                     ("nested",
                      Directory [("n.js", File (Exports (LRule ruleFailing)))])]
               ++ post)
       /\ (loadValidationRules
             (Directory
                [("a.js", File (Exports (LRule ruleArray)));
                 ("nested", Directory [("n.js", File (Exports (LRule ruleFailing)))])])
             (path_join "rules" "android") (Some []) emptyWorld).1
          = Fulfilled
              (directRules
                 [("a.js", File (Exports (LRule ruleArray)));
                  ("nested",
                   Directory [("n.js", File (Exports (LRule ruleFailing)))])]).
Proof.
  assert (H : "android" ∈ ["android"; "windows"]) by left.
  split; [exact H|].
  exact (loadValidationRules_enters_one_level _ _ _ "android" "rules" _ emptyWorld H).
Defined.

(** The [ios] folder when only [android] is requested. *)
Lemma loadValidationRules_skips_other_platforms_witness :
  isDirectory (Directory [("i.js", File (Exports (LRule ruleSilent)))])
  /\ ("ios" ∉ ["android"])
  /\ (loadValidationRules sampleTree "rules" (Some ["android"]) emptyWorld).1
     = (loadValidationRules
          (Directory [("common.js", File (Exports (LRule ruleSingle)));
                      ("android", androidFolder)])
          "rules" (Some ["android"]) emptyWorld).1
  /\ console (loadValidationRules sampleTree "rules" (Some ["android"]) emptyWorld).2
     = console (loadValidationRules
                  (Directory [("common.js", File (Exports (LRule ruleSingle)));
                              ("android", androidFolder)])
                  "rules" (Some ["android"]) emptyWorld).2.
Proof.
  assert (Hdir : isDirectory (Directory [("i.js", File (Exports (LRule ruleSilent)))]))
    by exact I.
  assert (Hfile : "ios" ∉ ["android"])
    by (apply (bool_decide_unpack _); vm_compute; exact I).
  split; [exact Hdir|]. split; [exact Hfile|].
  exact (loadValidationRules_skips_other_platforms
           [("common.js", File (Exports (LRule ruleSingle))); ("android", androidFolder)]
           [] "ios" _ "rules" ["android"] emptyWorld Hdir Hfile).
Defined.

(** A file with a syntax error between two rule files. *)
Lemma loadValidationRules_one_unloadable_file_witness :
  exists rules,
    (loadValidationRules
       (Directory [("a.js", File (Exports (LRule ruleSingle)));
                   ("broken.js", File (Throws "Unexpected token }"));
                   ("b.js", File (Exports (LRule ruleArray)))])
       "rules" None emptyWorld).1 = Fulfilled rules
    /\ rules = [ruleSingle; ruleArray]
    /\ length rules = 2.
Proof.
  destruct (loadValidationRules_one_unloadable_file
              [("a.js", LRule ruleSingle)] [("b.js", LRule ruleArray)]
              "broken.js" "Unexpected token }" "rules" None emptyWorld)
    as (rules & Hrun & Hrules & _ & Hlength).
  exists rules. split; [exact Hrun|]. split; [exact Hrules|].
  apply Hlength. repeat constructor; eexists; reflexivity.
Defined.

(** Sizes 16 and 32 required, of an icon of size 16, of icons of sizes 16
    and 32, and of no icons. *)
Lemma imageValidation_reports_missing_sizes_witness :
  imageValidation sampleConstants {| icons := Some [icon 16] |}
    "desc" "web" "error" [PNum 16; PNum 32] pair
  = (undefined,
     VRecord {| description := "desc"; platform := "web"; level := "error";
                member := "icons"; code := "missing-image"; data := [PNum 32] |})
  /\ imageValidation sampleConstants {| icons := Some [icon 16; icon 32] |}
       "desc" "web" "error" [PNum 16; PNum 32] pair
     = (undefined, undefined)
  /\ imageValidation sampleConstants {| icons := None |}
       "desc" "web" "error" [PNum 16; PNum 32] pair
     = (undefined,
        VRecord {| description := "desc"; platform := "web"; level := "error";
                   member := "icons"; code := "missing-image";
                   data := [PNum 16; PNum 32] |}).
Proof.
  split; [|split].
  - destruct (imageValidation_reports_missing_sizes sampleConstants _ pair
                {| icons := Some [icon 16] |} "desc" "web" "error" [PNum 16; PNum 32])
      as [_ H].
    destruct (H [icon 16] [PNum 32] eq_refl) as [Hmissing _];
      [discriminate | reflexivity |].
    apply Hmissing. discriminate.
  - destruct (imageValidation_reports_missing_sizes sampleConstants _ pair
                {| icons := Some [icon 16; icon 32] |} "desc" "web" "error"
                [PNum 16; PNum 32])
      as [_ H].
    destruct (H [icon 16; icon 32] [] eq_refl) as [_ Hnone];
      [discriminate | reflexivity |].
    apply Hnone. reflexivity.
  - destruct (imageValidation_reports_missing_sizes sampleConstants _ pair
                {| icons := None |} "desc" "web" "error" [PNum 16; PNum 32])
      as [H _].
    apply H. left. reflexivity.
Defined.

(** Sizes 16 and 32 accepted, for an icon of size 64, for icons of sizes
    64 and 32, and for an empty icon list. *)
Lemma imageGroupValidation_reports_missing_group_witness :
  imageGroupValidation sampleConstants {| icons := Some [icon 64] |}
    "desc" "web" [PNum 16; PNum 32] pair
  = (undefined,
     VRecord {| description := "desc"; platform := "web"; level := "warning";
                member := "icons"; code := "missing-image-group";
                data := [PNum 16; PNum 32] |})
  /\ imageGroupValidation sampleConstants {| icons := Some [icon 64; icon 32] |}
       "desc" "web" [PNum 16; PNum 32] pair
     = (undefined, undefined)
  /\ imageGroupValidation sampleConstants {| icons := Some [] |}
       "desc" "web" [PNum 16; PNum 32] pair
     = (undefined,
        VRecord {| description := "desc"; platform := "web"; level := "warning";
                   member := "icons"; code := "missing-image-group";
                   data := [PNum 16; PNum 32] |}).
Proof.
  split; [|split].
  - destruct (imageGroupValidation_reports_missing_group sampleConstants _ pair
                {| icons := Some [icon 64] |} "desc" "web" [PNum 16; PNum 32])
      as [_ H].
    destruct (H [icon 64] eq_refl) as [_ Hnone]; [discriminate|].
    apply Hnone. intros i Hi.
    apply list_elem_of_singleton in Hi. subst i.
    apply (bool_decide_unpack _). vm_compute. exact I.
  - destruct (imageGroupValidation_reports_missing_group sampleConstants _ pair
                {| icons := Some [icon 64; icon 32] |} "desc" "web"
                [PNum 16; PNum 32])
      as [_ H].
    destruct (H [icon 64; icon 32] eq_refl) as [Hsome _]; [discriminate|].
    apply Hsome. exists (icon 32). split; [right; left | right; left].
  - destruct (imageGroupValidation_reports_missing_group sampleConstants _ pair
                {| icons := Some [] |} "desc" "web" [PNum 16; PNum 32])
      as [H _].
    apply H. right. reflexivity.
Defined.

(** One common rule and two platforms, the second ending first. *)
Lemma validateManifest_common_results_first_witness :
  let run := validateManifest sampleConstants "lib" sampleTree sampleScheduler
               (Some sampleDocument) samplePlatforms ["android"] emptyWorld in
  run = (Some (Fulfilled [VPrim (PStr "single"); VPrim (PStr "single");
                          VPrim (PStr "first"); VPrim (PStr "second")]),
         run.2)
  /\ exists info rules common platformResults,
       Some sampleDocument = Some info
       /\ (loadValidationRules sampleTree (path_join "lib" "validationRules")
             None emptyWorld).1 = Fulfilled rules
       /\ (forall w0, (runValidationRules (commonOrder sampleScheduler) info rules w0).1
                      = Some (Fulfilled common))
       /\ [VPrim (PStr "single"); VPrim (PStr "single");
           VPrim (PStr "first"); VPrim (PStr "second")]
          = common ++ concat platformResults
       /\ Forall (fun results =>
                    exists index platform rules',
                      samplePlatforms !! index = Some platform
                      /\ getValidationRules platform ["android"]
                         = Some (Fulfilled rules')
                      /\ forall w0,
                           (runValidationRules (rulesOrder sampleScheduler index)
                              info rules' w0).1
                           = Some (Fulfilled results))
                 platformResults.
Proof.
  intros run.
  assert (H : run = (Some (Fulfilled [VPrim (PStr "single"); VPrim (PStr "single");
                                      VPrim (PStr "first"); VPrim (PStr "second")]),
                     run.2)) by reflexivity.
  split; [exact H|].
  exact (validateManifest_common_results_first sampleConstants "lib" sampleTree
           sampleScheduler (Some sampleDocument) samplePlatforms ["android"]
           emptyWorld run.2 _ H).
Defined.

(** * Further properties *)

(** ** The rule loader *)

(** The rules come in the order of the listing: loading a listing made of
    two parts gives the rules of the first part followed by the rules of
    the second. *)
Theorem loadValidationRules_app
    (first second : list (string * fsnode)) (dir : string)
    (platforms : option (list string)) (w : World) :
  exists rules1 rules2,
    (loadValidationRules (Directory first) dir platforms w).1 = Fulfilled rules1
    /\ (loadValidationRules (Directory second) dir platforms w).1 = Fulfilled rules2
    /\ (loadValidationRules (Directory (first ++ second)) dir platforms w).1
       = Fulfilled (rules1 ++ rules2).
Proof.
  destruct (yields_result _ _ _ w (yields_load first dir platforms)) as [H1 _].
  destruct (yields_result _ _ _ w (yields_load second dir platforms)) as [H2 _].
  destruct (yields_result _ _ _ w (yields_load (first ++ second) dir platforms))
    as [H3 _].
  eexists _, _. split; [exact H1|]. split; [exact H2|].
  rewrite H3. by split_listing.
Qed.

Lemma files_only_summary (dir : string) (platforms : option (list string))
    (files : list (string * fsnode)) :
  Forall (fun entry => exists load, entry.2 = File load) files ->
  concat (kept <$> (entryOutcome dir platforms <$> files)) = directRules files
  /\ concat (printed <$> (entryOutcome dir platforms <$> files))
     = omap loadFailure files
  /\ concat (entryLogs platforms <$> files) = [].
Proof.
  unfold directRules.
  induction 1 as [|[file info] files [load Hload] _ (IH1 & IH2 & IH3)]; [done|].
  cbn [snd] in Hload. subst info.
  rewrite !fmap_cons. cbn [concat omap list_omap]. rewrite IH1, IH2, IH3.
  unfold entryOutcome, entryLogs, flatOutcome, exportedRules, loadFailure.
  cbn [fst snd]. by destruct load, platforms.
Qed.

(** In a folder that holds files only, whatever the number of files that
    do not load and whatever the platforms, the call ends fulfilled with
    the rules exported by the files that load, in the order of the
    listing, and prints one diagnostic for each file that does not load,
    in the order of the listing. *)
Theorem loadValidationRules_files_only
    (files : list (string * fsnode)) (dir : string)
    (platforms : option (list string)) (w : World) :
  Forall (fun entry => exists load, entry.2 = File load) files ->
  let run := loadValidationRules (Directory files) dir platforms w in
  run.1 = Fulfilled (directRules files)
  /\ console run.2 = console w ++ omap loadFailure files.
Proof.
  intros Hfiles run.
  destruct (yields_result _ _ _ w (yields_load files dir platforms)) as [Hr Hc].
  fold run in Hr, Hc.
  destruct (files_only_summary dir platforms files Hfiles) as (H1 & H2 & H3).
  by rewrite Hr, Hc, H1, H2, H3.
Qed.

(** An entry whose [fs.stat] fails does not fail the call: the rules are
    those of the listing without the entry, and the console holds, beside
    the diagnostics of the listing without the entry, the error of
    [fs.stat] as it is. *)
Theorem loadValidationRules_stat_failure
    (before after : list (string * fsnode)) (file cause dir : string)
    (platforms : option (list string)) (w : World) :
  let full := loadValidationRules (Directory (before ++ (file, StatFails cause) :: after))
                dir platforms w in
  let without := loadValidationRules (Directory (before ++ after)) dir platforms w in
  full.1 = without.1 /\ console full.2 ≡ₚ VError cause :: console without.2.
Proof.
  intros full without.
  destruct (yields_result _ _ _ w
              (yields_load (before ++ (file, StatFails cause) :: after) dir platforms))
    as [Hr Hc].
  destruct (yields_result _ _ _ w (yields_load (before ++ after) dir platforms))
    as [Hr' Hc'].
  fold full in Hr, Hc. fold without in Hr', Hc'.
  rewrite Hr, Hr', Hc, Hc'. split_listing.
  assert (Hout : entryOutcome dir platforms (file, StatFails cause)
                 = Rejected (VError cause)) by (by destruct platforms).
  assert (Hlog : entryLogs platforms (file, StatFails cause) = [])
    by (by destruct platforms).
  rewrite Hout, Hlog. cbn [kept printed app]. split; [done|].
  solve_Permutation.
Qed.

(** A requested platform folder that cannot be listed does not fail the
    call on the folder above it: the rules are those of the listing
    without the entry, and the console holds in addition the read error of
    the nested call, which names the path of the platform folder. *)
Theorem loadValidationRules_unlistable_platform_folder
    (before after : list (string * fsnode)) (file cause dir : string)
    (platforms : list string) (w : World) :
  file ∈ platforms ->
  let full := loadValidationRules (Directory (before ++ (file, Unlistable cause) :: after))
                dir (Some platforms) w in
  let without := loadValidationRules (Directory (before ++ after))
                   dir (Some platforms) w in
  full.1 = without.1
  /\ console full.2
     ≡ₚ VError ("Failed to read validation rules from the specified folder: '"
                +:+ path_join dir file +:+ "'. " +:+ cause +:+ ".")
        :: console without.2.
Proof.
  intros Hfile full without.
  destruct (yields_result _ _ _ w
              (yields_load (before ++ (file, Unlistable cause) :: after) dir
                 (Some platforms)))
    as [Hr Hc].
  destruct (yields_result _ _ _ w (yields_load (before ++ after) dir (Some platforms)))
    as [Hr' Hc'].
  fold full in Hr, Hc. fold without in Hr', Hc'.
  rewrite Hr, Hr', Hc, Hc'. split_listing.
  assert (Hout : entryOutcome dir (Some platforms) (file, Unlistable cause)
                 = Rejected (readError (path_join dir file) cause)).
  { unfold entryOutcome, notListed. cbn [fst snd].
    by rewrite bool_decide_eq_false_2 by (intros H; by apply H). }
  rewrite Hout. cbn [entryLogs snd kept printed app]. split; [done|].
  unfold readError. solve_Permutation.
Qed.

(** *** Which folders are listed *)

Lemma confined_ret {A} (P : event -> Prop) (a : A) : confined P (ret a).
Proof. intros w. exists []. split; [by rewrite app_nil_r | constructor]. Qed.

Lemma confined_emit (P : event -> Prop) (e : event) : P e -> confined P (emit e).
Proof. intros He w. exists [e]. split; [done | by constructor]. Qed.

Lemma confined_console_log (P : event -> Prop) (v : value) :
  confined P (console_log v).
Proof. intros w. exists []. split; [by rewrite app_nil_r | constructor]. Qed.

Lemma confined_bind {A B} (P : event -> Prop) (m : M A) (k : A -> M B) :
  confined P m -> (forall a, confined P (k a)) -> confined P (bind m k).
Proof.
  intros Hm Hk w. unfold bind.
  destruct (Hm w) as (events & Ht & HP). destruct (m w) as [a w1]. cbn [snd] in Ht.
  destruct (Hk a w1) as (events' & Ht' & HP').
  exists (events ++ events'). split; [|by apply Forall_app].
  by rewrite Ht', Ht, app_assoc.
Qed.

Lemma confined_mono {A} (P Q : event -> Prop) (m : M A) :
  (forall e, P e -> Q e) -> confined P m -> confined Q m.
Proof.
  intros HPQ Hm w. destruct (Hm w) as (events & Ht & HP).
  exists events. split; [done|]. by eapply Forall_impl.
Qed.

Lemma confined_mapM {A B} (P : event -> Prop) (f : A -> M B) (l : list A) :
  (forall a, a ∈ l -> confined P (f a)) -> confined P (mapM f l).
Proof.
  induction l as [|a l IH]; intros Hf; [apply confined_ret|].
  cbn [mapM]. apply confined_bind; [apply Hf; left|]. intros b.
  apply confined_bind; [apply IH; intros; apply Hf; by right|].
  intros bs. apply confined_ret.
Qed.

Lemma confined_foldM {A B} (P : event -> Prop) (f : B -> A -> M B)
    (l : list A) (acc : B) :
  (forall acc a, confined P (f acc a)) -> confined P (foldM f acc l).
Proof.
  intros Hf. revert acc. induction l as [|a l IH]; intros acc; [apply confined_ret|].
  cbn [foldM]. apply confined_bind; [apply Hf | apply IH].
Qed.

Lemma confined_consolidate (P : event -> Prop) (results : list (settlement loaded)) :
  confined P (consolidate results).
Proof.
  apply confined_foldM. intros acc [[|rule|rules]|reason]; try apply confined_ret.
  apply confined_bind; [apply confined_console_log | intros; apply confined_ret].
Qed.

(** The folders that a call on [dir] lists: [dir] itself, and the
    subfolders of [files] that [platforms] names. *)
Lemma confined_load (files : list (string * fsnode)) (dir : string)
    (platforms : option (list string)) :
  confined (fun e =>
              match e with
              | EReaddir d =>
                  d = dir
                  \/ exists file info listed,
                       (file, info) ∈ files /\ isDirectory info
                       /\ platforms = Some listed /\ file ∈ listed
                       /\ d = path_join dir file
              | _ => True
              end)
           (loadValidationRules (Directory files) dir platforms).
Proof.
  cbn [loadValidationRules].
  apply confined_bind; [apply confined_emit; by left|]. intros _.
  apply confined_bind.
  - apply confined_mapM. intros [file info] Hin.
    apply confined_bind; [by apply confined_emit|]. intros _.
    destruct info as [cause|load|cause|sub].
    + apply confined_ret.
    + apply confined_bind; [by apply confined_emit|]. intros _.
      destruct load; apply confined_ret.
    + destruct platforms as [listed|]; [|apply confined_ret].
      unfold notListed. case_bool_decide as Hlisted; [apply confined_ret|].
      apply confined_bind; [|intros; apply confined_ret].
      cbn [loadValidationRules].
      apply confined_bind; [|intros; apply confined_ret].
      apply confined_emit. right. by exists file, (Unlistable cause), listed.
    + destruct platforms as [listed|]; [|apply confined_ret].
      unfold notListed. case_bool_decide as Hlisted; [apply confined_ret|].
      apply confined_bind; [|intros; apply confined_ret].
      cbn [loadValidationRules].
      apply confined_bind;
        [apply confined_emit; right; by exists file, (Directory sub), listed|].
      intros _. apply confined_bind.
      * apply confined_mapM. intros [file' info'] _.
        apply confined_bind; [by apply confined_emit|]. intros _.
        destruct info' as [cause'|load'|cause'|sub'].
        -- apply confined_ret.
        -- apply confined_bind; [by apply confined_emit|]. intros _.
           destruct load'; apply confined_ret.
        -- rewrite notListed_nil. apply confined_ret.
        -- rewrite notListed_nil. apply confined_ret.
      * intros results. apply confined_bind; [apply confined_consolidate|].
        intros; apply confined_ret.
  - intros results. apply confined_bind; [apply confined_consolidate|].
    intros; apply confined_ret.
Qed.

(** The loader lists the folder it is called on and, below it, only the
    subfolders whose name is among the requested platforms: a folder that
    is not requested, and any folder nested in a platform folder, is never
    listed. *)
Theorem loadValidationRules_lists_requested_folders_only
    (files : list (string * fsnode)) (dir : string) (platforms : list string)
    (w : World) (d : string) :
  EReaddir d ∈ trace (loadValidationRules (Directory files) dir (Some platforms) w).2 ->
  EReaddir d ∈ trace w
  \/ d = dir
  \/ exists file info,
       (file, info) ∈ files /\ isDirectory info /\ file ∈ platforms
       /\ d = path_join dir file.
Proof.
  intros Hin.
  destruct (confined_load files dir (Some platforms) w) as (events & Ht & HP).
  rewrite Ht in Hin. apply elem_of_app in Hin. destruct Hin as [Hin|Hin]; [by left|].
  right. rewrite Forall_forall in HP. specialize (HP _ Hin). cbn beta iota in HP.
  destruct HP as [->|(file & info & listed & Hf & Hd & [= <-] & Hl & ->)]; [by left|].
  right. by exists file, info.
Qed.

(** ** The rule executor *)

(** Once every callback has completed, the call is fulfilled with what the
    completions added, in the order of completion. *)
Lemma runValidationRules_complete (order : list nat) (info : DocumentInfo)
    (rules : list RuleFunction) (w : World) :
  (forall index, index < length rules -> index ∈ order) ->
  (runValidationRules order info rules w).1
  = Some (Fulfilled
            (concat (contribution
                       <$> omap (fun index =>
                                   ((fun rule : RuleFunction => rule (content info))
                                      <$> rules) !! index)
                                order))).
Proof.
  intros Hall.
  destruct (yields_result _ _ _ w (yields_runValidationRules order info rules))
    as [-> _].
  unfold runCallbacks. rewrite callbacks_results. cbn [results app].
  apply allSettled_all. intros index Hlt.
  rewrite callbacks_length in Hlt. cbn [pendingValidations] in Hlt.
  rewrite length_replicate in Hlt.
  apply callbacks_settle.
  - cbn [pendingValidations]. by rewrite length_replicate, length_fmap.
  - by apply Hall.
  - by rewrite length_fmap.
Qed.

Lemma omap_lookup_seq {A} (l : list A) :
  omap (fun index => l !! index) (seq 0 (length l)) = l.
Proof.
  assert (G : forall k : list A,
    omap (fun index => (k ++ l) !! index) (seq (length k) (length l)) = l).
  { induction l as [|x l IH]; intros k; [done|].
    cbn [length seq omap list_omap].
    rewrite list_lookup_middle by done. f_equal.
    specialize (IH (k ++ [x])). rewrite <- app_assoc, length_app in IH.
    cbn [app length] in IH. by rewrite Nat.add_1_r in IH. }
  apply (G []).
Qed.

Lemma concat_Permutation {A} (l k : list (list A)) :
  l ≡ₚ k -> concat l ≡ₚ concat k.
Proof.
  induction 1 as [|x l k _ IH|x y l|l k m _ IH1 _ IH2]; cbn [concat].
  - done.
  - by rewrite IH.
  - solve_Permutation.
  - by rewrite IH1.
Qed.

(** A rule that never calls its completion callback stalls the call: the
    returned promise never settles. *)
Theorem runValidationRules_stalls
    (order : list nat) (w3cManifestInfo : DocumentInfo)
    (rules : list RuleFunction) (w : World) (index : nat) :
  index < length rules -> index ∉ order ->
  (runValidationRules order w3cManifestInfo rules w).1 = None.
Proof.
  intros Hlt Hout.
  destruct (yields_result _ _ _ w (yields_runValidationRules order w3cManifestInfo rules))
    as [-> _].
  apply (allSettled_pending _ _ index).
  unfold runCallbacks. rewrite callbacks_untouched by done.
  cbn [pendingValidations]. by apply lookup_replicate_2.
Qed.

(** Whatever the rules do and in whatever order, or not at all, their
    callbacks complete, the call never ends rejected and never prints. *)
Theorem runValidationRules_never_rejects
    (order : list nat) (w3cManifestInfo : DocumentInfo)
    (rules : list RuleFunction) (w : World) :
  let run := runValidationRules order w3cManifestInfo rules w in
  (forall reason, run.1 <> Some (Rejected reason)) /\ console run.2 = console w.
Proof.
  intros run.
  destruct (yields_result _ _ _ w (yields_runValidationRules order w3cManifestInfo rules))
    as [Hr Hc].
  fold run in Hr, Hc. split; [|by rewrite Hc, app_nil_r].
  intros reason. rewrite Hr. apply allSettled_not_rejected.
Qed.

(** When the callbacks complete in the order of the rules, as they do for
    rules that call back before returning, the results come in the order
    of the rules. *)
Theorem runValidationRules_in_rule_order
    (w3cManifestInfo : DocumentInfo) (rules : list RuleFunction) (w : World) :
  (runValidationRules (seq 0 (length rules)) w3cManifestInfo rules w).1
  = Some (Fulfilled
            (concat ((fun rule : RuleFunction =>
                        contribution (rule (content w3cManifestInfo))) <$> rules))).
Proof.
  rewrite runValidationRules_complete by (intros; apply elem_of_seq; lia).
  rewrite <- (length_fmap (fun rule : RuleFunction => rule (content w3cManifestInfo))
                rules) at 1.
  by rewrite omap_lookup_seq, <- list_fmap_compose.
Qed.

(** The order of completion changes the order of the results and nothing
    else: two runs in which every callback completes once return the same
    results up to their order. *)
Theorem runValidationRules_order_permutes_results
    (order order' : list nat) (w3cManifestInfo : DocumentInfo)
    (rules : list RuleFunction) (w w' : World) :
  order ≡ₚ seq 0 (length rules) -> order' ≡ₚ seq 0 (length rules) ->
  exists results results',
    (runValidationRules order w3cManifestInfo rules w).1 = Some (Fulfilled results)
    /\ (runValidationRules order' w3cManifestInfo rules w').1
       = Some (Fulfilled results')
    /\ results ≡ₚ results'.
Proof.
  intros Hp Hp'.
  eexists _, _. split; [|split].
  - apply runValidationRules_complete. intros index Hlt.
    rewrite Hp. apply elem_of_seq. lia.
  - apply runValidationRules_complete. intros index Hlt.
    rewrite Hp'. apply elem_of_seq. lia.
  - apply concat_Permutation. by rewrite Hp, Hp'.
Qed.

Lemma runCallbacks_no_rules (order : list nat) (info : DocumentInfo) :
  runCallbacks order info [] = {| results := []; pendingValidations := [] |}.
Proof.
  unfold runCallbacks. cbn [length replicate fmap list_fmap].
  assert (G : forall st, foldl (complete []) st order = st); [|apply G].
  induction order as [|index order IH]; intros st; [done|].
  cbn [foldl]. rewrite IH. unfold complete. by rewrite lookup_nil.
Qed.

(** With no rules the call is fulfilled with the empty list and the world
    is left as it was, whatever the order. *)
Theorem runValidationRules_no_rules
    (order : list nat) (w3cManifestInfo : DocumentInfo) (w : World) :
  runValidationRules order w3cManifestInfo [] w = (Some (Fulfilled []), w).
Proof.
  unfold runValidationRules. rewrite runCallbacks_no_rules. destruct w. reflexivity.
Qed.

(** ** The coordinator *)

(** When the built-in rules folder cannot be listed, the validation of a
    well-formed document ends rejected with the read error of the loader;
    the folder has been read and nothing else was done: no rule was called
    and no platform was asked for its rules. *)
Theorem validateManifest_unlistable_rules_folder
    (constants : Constants) (dirname cause : string) (scheduler : Scheduler)
    (info : DocumentInfo) (manifestContent : ManifestContent)
    (platformModules : list PlatformModule) (platforms : list string) (w : World) :
  content info = Some manifestContent ->
  format info = BASE_MANIFEST_FORMAT constants ->
  validateManifest constants dirname (Unlistable cause) scheduler (Some info)
    platformModules platforms w
  = (Some (Rejected
       (VError ("Failed to read validation rules from the specified folder: '"
                +:+ path_join dirname "validationRules" +:+ "'. " +:+ cause +:+ "."))),
     {| console := console w;
        trace := trace w ++ [EReaddir (path_join dirname "validationRules")] |}).
Proof.
  intros Hcontent Hformat. unfold validateManifest.
  by rewrite Hcontent, Hformat, String.eqb_refl.
Qed.

Lemma platformTasks_no_platforms (scheduler : Scheduler) (info : DocumentInfo)
    (platforms : list string) (order : list nat) (st : Coordination) (w : World) :
  foldM (platformTask scheduler info [] platforms) st order w = (st, w).
Proof.
  revert st w. induction order as [|index order IH]; intros st w; [done|].
  cbn [foldM]. unfold bind.
  assert (Hstep : platformTask scheduler info [] platforms st index w = (st, w))
    by (unfold platformTask; by rewrite lookup_nil).
  rewrite Hstep. apply IH.
Qed.

(** With an empty built-in rules folder and no platform module, the
    validation of a well-formed document is fulfilled with an empty report
    and prints nothing, whatever the scheduler and the platforms. *)
Theorem validateManifest_nothing_to_run
    (constants : Constants) (dirname : string) (scheduler : Scheduler)
    (info : DocumentInfo) (manifestContent : ManifestContent)
    (platforms : list string) (w : World) :
  content info = Some manifestContent ->
  format info = BASE_MANIFEST_FORMAT constants ->
  let run := validateManifest constants dirname (Directory []) scheduler (Some info)
               [] platforms w in
  run.1 = Some (Fulfilled []) /\ console run.2 = console w.
Proof.
  intros Hcontent Hformat run.
  assert (H : run = (Some (Fulfilled []),
                     {| console := console w;
                        trace := trace w
                                 ++ [EReaddir (path_join dirname "validationRules")] |}));
    [|by rewrite H].
  subst run. unfold validateManifest.
  rewrite Hcontent, Hformat, String.eqb_refl. cbn [negb].
  unfold bind at 1.
  change (loadValidationRules (Directory []) (path_join dirname "validationRules")
            None w)
    with (Fulfilled ([] : list RuleFunction),
          {| console := console w;
             trace := trace w ++ [EReaddir (path_join dirname "validationRules")] |}).
  cbn beta iota. unfold bind at 1, runValidationRules.
  rewrite runCallbacks_no_rules. cbn.
  unfold bind. rewrite platformTasks_no_platforms. by cbn.
Qed.

Section Pipelines.
Context (scheduler : Scheduler) (info : DocumentInfo).
Context (platformModules : list PlatformModule) (platforms : list string).

Lemma platformTask_ends (st : Coordination) (index : nat) (platform : PlatformModule)
    (w : World) :
  platformModules !! index = Some platform ->
  platformTasks st !! index = Some None ->
  pipelineEnds scheduler platforms index platform ->
  exists part s,
    pipelineAdds scheduler info platformModules platforms index part
    /\ (platformTask scheduler info platformModules platforms st index w).1
       = {| allResults := allResults st ++ part;
            platformTasks := settle index s (platformTasks st) |}.
Proof.
  intros Hp Ht Hends. unfold platformTask. rewrite Hp, Ht.
  destruct Hends as [[reason Hg]|(rules & Hg & Hperm)]; rewrite Hg.
  - exists [], (Rejected reason). split.
    + exists platform. split; [done|]. left. by exists reason.
    + by rewrite app_nil_r.
  - assert (Hrun : forall w0,
      (runValidationRules (rulesOrder scheduler index) info rules w0).1
      = Some (Fulfilled
                (concat (contribution
                           <$> omap (fun i =>
                                       ((fun rule : RuleFunction => rule (content info))
                                          <$> rules) !! i)
                                    (rulesOrder scheduler index))))).
    { intros w0. apply runValidationRules_complete. intros i Hi.
      rewrite Hperm. apply elem_of_seq. lia. }
    eexists _, (Fulfilled tt). split.
    + exists platform. split; [done|]. right. exists rules. split; [done|]. exact Hrun.
    + unfold bind. specialize (Hrun w).
      destruct (runValidationRules (rulesOrder scheduler index) info rules w)
        as [r w1].
      cbn [fst] in Hrun. by rewrite Hrun.
Qed.

Lemma platformTasks_end (order : list nat) (st : Coordination) (w : World) :
  NoDup order ->
  (forall index, index ∈ order ->
     platformTasks st !! index = Some None
     /\ exists platform, platformModules !! index = Some platform
                         /\ pipelineEnds scheduler platforms index platform) ->
  let st' := (foldM (platformTask scheduler info platformModules platforms)
                st order w).1 in
  exists parts,
    Forall2 (pipelineAdds scheduler info platformModules platforms) order parts
    /\ allResults st' = allResults st ++ concat parts
    /\ length (platformTasks st') = length (platformTasks st)
    /\ (forall index s, platformTasks st !! index = Some (Some s) ->
                        platformTasks st' !! index = Some (Some s))
    /\ (forall index, index ∈ order ->
                      exists s, platformTasks st' !! index = Some (Some s)).
Proof.
  revert st w. induction order as [|index order IH]; intros st w Hnodup Hall.
  - exists []. cbn [foldM]. unfold ret. cbn [fst concat].
    split; [constructor|]. split; [by rewrite app_nil_r|].
    split; [done|]. split; [done|].
    intros index Hin. by apply elem_of_nil in Hin.
  - apply NoDup_cons in Hnodup. destruct Hnodup as [Hfresh Hnodup].
    destruct (Hall index) as (Hpending & platform & Hp & Hends); [left|].
    destruct (platformTask_ends st index platform w Hp Hpending Hends)
      as (part & s & Hadds & Hstep).
    cbn [foldM]. unfold bind.
    destruct (platformTask scheduler info platformModules platforms st index w)
      as [st1 w1].
    cbn [fst] in Hstep. subst st1.
    destruct (IH {| allResults := allResults st ++ part;
                    platformTasks := settle index s (platformTasks st) |} w1 Hnodup)
      as (parts & H2 & Hres & Hlen & Hkeep & Hsettled).
    { intros j Hj. destruct (Hall j) as (Hjp & Hjm); [by right|].
      split; [|done]. cbn [platformTasks].
      transitivity (platformTasks st !! j); [|done].
      apply settle_other. by intros ->. }
    cbn [platformTasks allResults] in Hres, Hlen, Hkeep.
    exists (part :: parts). split; [|split; [|split; [|split]]].
    + by constructor.
    + rewrite Hres. cbn [concat]. by rewrite app_assoc.
    + rewrite Hlen. apply length_settle.
    + intros j sj Hj. apply Hkeep. by apply settle_keeps.
    + intros j Hj. apply elem_of_cons in Hj. destruct Hj as [->|Hj]; [|by apply Hsettled].
      destruct (settle_settles index s (platformTasks st)) as [s' Hs'].
      { eapply lookup_lt_Some. exact Hpending. }
      exists s'. by apply Hkeep.
Qed.

(** A pipeline whose platform never answers keeps its task pending. *)
Lemma platformTasks_stay_pending (order : list nat) (st : Coordination) (w : World)
    (index : nat) (platform : PlatformModule) :
  platformModules !! index = Some platform ->
  getValidationRules platform platforms = None ->
  platformTasks st !! index = Some None ->
  platformTasks (foldM (platformTask scheduler info platformModules platforms)
                   st order w).1 !! index = Some None.
Proof.
  intros Hp Hg. revert st w. induction order as [|j order IH]; intros st w Ht; [done|].
  cbn [foldM]. unfold bind.
  destruct (platformTask scheduler info platformModules platforms st j w)
    as [st1 w1] eqn:Hstep.
  apply IH.
  assert (Hst1 : st1 = (platformTask scheduler info platformModules platforms st j w).1)
    by (by rewrite Hstep).
  subst st1. clear Hstep. unfold platformTask.
  destruct (decide (j = index)) as [->|Hne].
  - by rewrite Hp, Ht, Hg.
  - destruct (platformModules !! j) as [pj|]; [|done].
    destruct (platformTasks st !! j) as [[?|]|]; try done.
    destruct (getValidationRules pj platforms) as [[rules|reason]|]; try done.
    + unfold bind.
      destruct (runValidationRules (rulesOrder scheduler j) info rules w)
        as [[[results|reason]|] w2]; try done;
        cbn [fst platformTasks];
        (transitivity (platformTasks st !! index); [by apply settle_other | done]).
    + unfold ret. cbn [fst platformTasks].
      transitivity (platformTasks st !! index); [by apply settle_other | done].
Qed.
End Pipelines.

(** When every pipeline can end, the validation of a well-formed document
    is fulfilled: the callbacks of the common rules complete once each,
    every platform pipeline ends once, and every platform either refuses
    its rules or has the callbacks of its rules complete once each.  The
    report is then the results of the common rules followed by what each
    pipeline adds, in the order in which the pipelines end; a platform
    that refuses its rules adds nothing and fails nothing. *)
Theorem validateManifest_resolves
    (constants : Constants) (dirname : string) (files : list (string * fsnode))
    (scheduler : Scheduler) (info : DocumentInfo) (manifestContent : ManifestContent)
    (platformModules : list PlatformModule) (platforms : list string) (w : World) :
  content info = Some manifestContent ->
  format info = BASE_MANIFEST_FORMAT constants ->
  commonOrder scheduler ≡ₚ seq 0 (length (directRules files)) ->
  platformOrder scheduler ≡ₚ seq 0 (length platformModules) ->
  (forall index platform,
     platformModules !! index = Some platform ->
     pipelineEnds scheduler platforms index platform) ->
  exists common parts,
    (forall w0,
       (runValidationRules (commonOrder scheduler) info (directRules files) w0).1
       = Some (Fulfilled common))
    /\ Forall2 (pipelineAdds scheduler info platformModules platforms)
               (platformOrder scheduler) parts
    /\ (validateManifest constants dirname (Directory files) scheduler (Some info)
          platformModules platforms w).1
       = Some (Fulfilled (common ++ concat parts)).
Proof.
  intros Hcontent Hformat Hcommon Hplatforms Hends.
  assert (Hrun : forall w0,
    (runValidationRules (commonOrder scheduler) info (directRules files) w0).1
    = Some (Fulfilled
              (concat (contribution
                         <$> omap (fun i =>
                                     ((fun rule : RuleFunction => rule (content info))
                                        <$> directRules files) !! i)
                                  (commonOrder scheduler))))).
  { intros w0. apply runValidationRules_complete. intros i Hi.
    rewrite Hcommon. apply elem_of_seq. lia. }
  eexists _. 
  unfold validateManifest. rewrite Hcontent, Hformat, String.eqb_refl. cbn [negb].
  unfold bind at 1.
  pose proof (loadValidationRules_without_platforms files
                (path_join dirname "validationRules") w) as Hload.
  destruct (loadValidationRules (Directory files) _ None w) as [loadedRules w1].
  cbn [fst] in Hload. subst loadedRules.
  unfold bind at 1. pose proof (Hrun w1) as Hrun1.
  destruct (runValidationRules (commonOrder scheduler) info (directRules files) w1)
    as [common w2].
  cbn [fst] in Hrun1. subst common.
  unfold bind at 1.
  destruct (mapM (fun _ : PlatformModule => emit (EGetValidationRules platforms))
              platformModules w2) as [u w3].
  unfold bind at 1.
  match goal with
  | |- context [foldM ?f ?st ?order w3] =>
      destruct (platformTasks_end scheduler info platformModules platforms
                  order st w3) as (parts & Hadds & Hres & Hlen & _ & Hsettled);
      [ | | destruct (foldM f st order w3) as [st' w4] ]
  end.
  - rewrite Hplatforms. apply NoDup_seq.
  - intros index Hin. rewrite Hplatforms in Hin. apply elem_of_seq in Hin.
    cbn [platformTasks]. split; [apply lookup_replicate_2; lia|].
    destruct (lookup_lt_is_Some_2 platformModules index) as [platform Hp]; [lia|].
    exists platform. split; [done|]. by apply Hends.
  - cbn [fst platformTasks allResults] in Hres, Hlen, Hsettled.
    exists parts. split; [exact Hrun|]. split; [exact Hadds|].
    unfold ret. cbn [fst]. rewrite Hres. apply allSettled_all.
    intros index Hlt. unfold promise in *. rewrite Hlen, length_replicate in Hlt.
    apply Hsettled. rewrite Hplatforms. apply elem_of_seq. lia.
Qed.

(** A platform module whose [getValidationRules] never settles stalls the
    validation: whatever else happens, the call does not end with a
    report. *)
Theorem validateManifest_stalls_on_silent_platform
    (constants : Constants) (dirname : string) (validationRules : fsnode)
    (scheduler : Scheduler) (w3cManifestInfo : option DocumentInfo)
    (platformModules : list PlatformModule) (platforms : list string)
    (w : World) (index : nat) (platform : PlatformModule) (report : list value) :
  platformModules !! index = Some platform ->
  getValidationRules platform platforms = None ->
  (validateManifest constants dirname validationRules scheduler w3cManifestInfo
     platformModules platforms w).1 <> Some (Fulfilled report).
Proof.
  intros Hp Hg. unfold validateManifest.
  destruct w3cManifestInfo as [info|]; [|done].
  destruct (content info); [|done].
  destruct (negb _); [done|].
  unfold bind at 1.
  destruct (loadValidationRules validationRules _ None w) as [[rules|reason] w1];
    [|done].
  unfold bind at 1.
  destruct (runValidationRules (commonOrder scheduler) info rules w1)
    as [[[common|reason]|] w2]; try done.
  unfold bind at 1.
  destruct (mapM (fun _ : PlatformModule => emit (EGetValidationRules platforms))
              platformModules w2) as [u w3].
  unfold bind at 1.
  match goal with
  | |- context [foldM ?f ?st ?order w3] =>
      pose proof (platformTasks_stay_pending scheduler info platformModules platforms
                    order st w3 index platform Hp Hg) as Hpending;
      destruct (foldM f st order w3) as [st' w4]
  end.
  cbn [fst platformTasks] in Hpending. unfold ret. cbn [fst].
  rewrite (allSettled_pending _ _ index); [done|].
  apply Hpending, lookup_replicate_2. by eapply lookup_lt_Some.
Qed.

(** ** The loader called without a platform list *)

(** Called without the [platforms] argument on a folder that can be
    listed, the loader ends fulfilled with the rules of the files that lie
    directly in the folder, and nothing else: every subfolder is dropped,
    and the [TypeError] raised on it is printed. *)
Theorem loadValidationRules_platforms_omitted
    (files : list (string * fsnode)) (dir : string) (w : World) :
  let run := loadValidationRules (Directory files) dir None w in
  run.1 = Fulfilled (directRules files)
  /\ forall file info,
       (file, info) ∈ files -> isDirectory info ->
       VError indexOf_of_undefined ∈ console run.2.
Proof.
  intros run. split; [apply loadValidationRules_without_platforms|].
  intros file info Hin Hdir.
  destruct (yields_result _ _ _ w (yields_load files dir None)) as [_ Hc].
  fold run in Hc. rewrite Hc.
  apply list_elem_of_split in Hin. destruct Hin as (l1 & l2 & ->).
  split_listing.
  assert (Hout : entryOutcome dir None (file, info)
                 = Rejected (VError indexOf_of_undefined))
    by (by destruct info).
  rewrite Hout. cbn [printed app].
  repeat first [rewrite elem_of_app | rewrite elem_of_cons]. naive_solver.
Qed.

(** ** The icon rules, together *)

(** ``All of'' is stronger than ``one of'': when the rule that requires
    every size of a non-empty list reports nothing on a manifest with
    icons, the rule that requires one of these sizes reports nothing
    either. *)
Theorem imageValidation_silent_implies_group_silent
    (constants : Constants) (manifestContent : ManifestContent)
    (icons' : list Icon) (description platform level description' platform' : string)
    (iconSizes : list prim) :
  icons manifestContent = Some icons' -> icons' <> [] -> iconSizes <> [] ->
  imageValidation constants manifestContent description platform level iconSizes pair
  = (undefined, undefined) ->
  imageGroupValidation constants manifestContent description' platform' iconSizes pair
  = (undefined, undefined).
Proof.
  intros Hicons Hne Hsizes. unfold imageValidation, imageGroupValidation.
  rewrite Hicons. destruct icons' as [|icon rest]; [done|].
  rewrite missingIconsSizes_filter.
  destruct (filter _ iconSizes) as [|missing others] eqn:Hfilter; [|discriminate].
  intros _. destruct iconSizes as [|size sizes']; [done|].
  assert (Hin : size ∈ sizes <$> icon :: rest).
  { destruct (decide (size ∈ sizes <$> icon :: rest)) as [|Hout]; [done|].
    exfalso. eapply (filter_nil_not_elem_of _ _ size Hfilter); [exact Hout | left]. }
  apply list_elem_of_fmap in Hin. destruct Hin as (found & -> & Hfound).
  assert (H : anyIconMatches (icon :: rest) (sizes found :: sizes') = true).
  { apply anyIconMatches_exists. exists found. split; [done | left]. }
  by rewrite H.
Qed.

Lemma anyIconMatches_sizes (icons1 icons2 : list Icon) (validIconSizes : list prim) :
  (forall size, size ∈ sizes <$> icons1 <-> size ∈ sizes <$> icons2) ->
  anyIconMatches icons1 validIconSizes = anyIconMatches icons2 validIconSizes.
Proof.
  intros Hsame.
  assert (G : forall l1 l2,
    (forall size, size ∈ sizes <$> l1 -> size ∈ sizes <$> l2) ->
    anyIconMatches l1 validIconSizes = true ->
    anyIconMatches l2 validIconSizes = true).
  { intros l1 l2 Hsub (found & Hfound & Hvalid)%anyIconMatches_exists.
    destruct (proj1 (list_elem_of_fmap sizes l2 (sizes found))) as (found' & Heq & Hin').
    { apply Hsub. by apply list_elem_of_fmap_2. }
    apply anyIconMatches_exists. exists found'. split; [done|]. by rewrite <- Heq. }
  destruct (anyIconMatches icons1 validIconSizes) eqn:E1,
           (anyIconMatches icons2 validIconSizes) eqn:E2; try done.
  - rewrite (G icons1 icons2) in E2; [done | apply Hsame | done].
  - rewrite (G icons2 icons1) in E1; [done | apply Hsame | done].
Qed.

(** The icon rules look at the set of sizes of the icons only: two
    manifests with icons whose sizes are the same, whatever their order
    and their number, get the same report from each rule. *)
Theorem icon_rules_depend_on_the_sizes_only
    (constants : Constants) (A : Type) (callback : value -> value -> A)
    (content1 content2 : ManifestContent) (icons1 icons2 : list Icon)
    (description platform level : string) (iconSizes : list prim) :
  icons content1 = Some icons1 -> icons content2 = Some icons2 ->
  icons1 <> [] -> icons2 <> [] ->
  (forall size, size ∈ sizes <$> icons1 <-> size ∈ sizes <$> icons2) ->
  imageValidation constants content1 description platform level iconSizes callback
  = imageValidation constants content2 description platform level iconSizes callback
  /\ imageGroupValidation constants content1 description platform iconSizes callback
     = imageGroupValidation constants content2 description platform iconSizes callback.
Proof.
  intros H1 H2 Hne1 Hne2 Hsame. unfold imageValidation, imageGroupValidation.
  rewrite H1, H2.
  destruct icons1 as [|i1 r1]; [done|]. destruct icons2 as [|i2 r2]; [done|].
  rewrite !missingIconsSizes_filter.
  rewrite (list_filter_iff (fun size => size ∉ sizes <$> i1 :: r1)
                           (fun size => size ∉ sizes <$> i2 :: r2))
    by (intros size; by rewrite Hsame).
  by rewrite (anyIconMatches_sizes (i1 :: r1) (i2 :: r2) iconSizes Hsame).
Qed.

(** Sizes are compared with [===]: an icon whose size is a string never
    provides a size required as a number.  On a manifest whose icons all
    have string sizes, every required number is reported missing. *)
Theorem imageValidation_number_is_not_string
    (constants : Constants) (A : Type) (callback : value -> value -> A)
    (manifestContent : ManifestContent) (icons' : list Icon)
    (description platform level : string) (requiredIconSizes : list prim) :
  icons manifestContent = Some icons' -> icons' <> [] ->
  Forall (fun icon => exists s, sizes icon = PStr s) icons' ->
  Forall (fun size => exists n, size = PNum n) requiredIconSizes ->
  requiredIconSizes <> [] ->
  imageValidation constants manifestContent description platform level
    requiredIconSizes callback
  = callback undefined
      (VRecord {| description := description; platform := platform; level := level;
                  member := manifestMembers_icons constants;
                  code := codes_missingImage constants;
                  data := requiredIconSizes |}).
Proof.
  intros Hicons Hne Hstrings Hnumbers Hrequired. unfold imageValidation.
  rewrite Hicons. destruct icons' as [|icon rest]; [done|].
  rewrite missingIconsSizes_filter.
  assert (Hall : filter (fun size => size ∉ sizes <$> icon :: rest) requiredIconSizes
                 = requiredIconSizes).
  { clear Hrequired. induction Hnumbers as [|size l [n ->] _ IH]; [done|].
    rewrite filter_cons_True, IH; [done|].
    intros (found & Heq & Hfound)%list_elem_of_fmap.
    rewrite Forall_forall in Hstrings. destruct (Hstrings _ Hfound) as [s Hs].
    congruence. }
  rewrite Hall. by destruct requiredIconSizes.
Qed.

(** ** Instances of the further properties *)

(** Two files that load around one that does not and one that exports
    nothing. *)
Lemma loadValidationRules_files_only_witness :
  let files := [("a.js", File (Exports (LRule ruleSingle)));
                ("broken.js", File (Throws "Unexpected token }"));
                ("empty.js", File (Exports LFalsy));
                ("b.js", File (Exports (LRules [ruleArray; ruleSilent])))] in
  let run := loadValidationRules (Directory files) "rules" (Some ["android"])
               emptyWorld in
  Forall (fun entry => exists load, entry.2 = File load) files
  /\ run.1 = Fulfilled (directRules files)
  /\ console run.2 = console emptyWorld ++ omap loadFailure files.
Proof.
  intros files run.
  assert (H : Forall (fun entry => exists load, entry.2 = File load) files)
    by (repeat constructor; eexists; reflexivity).
  split; [exact H|].
  exact (loadValidationRules_files_only files "rules" (Some ["android"]) emptyWorld H).
Defined.

(** The [android] folder, requested, cannot be listed. *)
Lemma loadValidationRules_unlistable_platform_folder_witness :
  let before := [("common.js", File (Exports (LRule ruleSingle)))] in
  let after := [("ios", Directory [("i.js", File (Exports (LRule ruleSilent)))])] in
  let full := loadValidationRules
                (Directory (before ++ ("android", Unlistable "EACCES") :: after))
                "rules" (Some ["android"]) emptyWorld in
  let without := loadValidationRules (Directory (before ++ after))
                   "rules" (Some ["android"]) emptyWorld in
  "android" ∈ ["android"]
  /\ full.1 = without.1
  /\ console full.2
     ≡ₚ VError ("Failed to read validation rules from the specified folder: '"
                +:+ path_join "rules" "android" +:+ "'. " +:+ "EACCES" +:+ ".")
        :: console without.2.
Proof.
  intros before after full without.
  assert (H : "android" ∈ ["android"]) by left.
  split; [exact H|].
  exact (loadValidationRules_unlistable_platform_folder before after "android" "EACCES"
           "rules" ["android"] emptyWorld H).
Defined.

(** The [android] folder of the sample tree is listed, and it is
    requested. *)
Lemma loadValidationRules_lists_requested_folders_only_witness :
  EReaddir "rules/android"
    ∈ trace (loadValidationRules sampleTree "rules" (Some ["android"]) emptyWorld).2
  /\ (EReaddir "rules/android" ∈ trace emptyWorld
      \/ "rules/android" = "rules"
      \/ exists file info,
           (file, info)
             ∈ [("common.js", File (Exports (LRule ruleSingle)));
                ("android", androidFolder);
                ("ios", Directory [("i.js", File (Exports (LRule ruleSilent)))])]
           /\ isDirectory info /\ file ∈ ["android"]
           /\ "rules/android" = path_join "rules" file).
Proof.
  assert (H : EReaddir "rules/android"
                ∈ trace (loadValidationRules sampleTree "rules" (Some ["android"])
                           emptyWorld).2).
  { vm_compute. do 4 right. left. }
  split; [exact H|].
  exact (loadValidationRules_lists_requested_folders_only _ "rules" ["android"]
           emptyWorld "rules/android" H).
Defined.

(** The third of four rules never calls back. *)
Lemma runValidationRules_stalls_witness :
  2 < length sampleRules /\ (2 ∉ [0; 3; 1])
  /\ (runValidationRules [0; 3; 1] sampleDocument sampleRules emptyWorld).1 = None.
Proof.
  assert (H1 : 2 < length sampleRules) by (vm_compute; lia).
  assert (H2 : 2 ∉ [0; 3; 1]) by (apply (bool_decide_unpack _); vm_compute; exact I).
  split; [exact H1|]. split; [exact H2|].
  exact (runValidationRules_stalls [0; 3; 1] sampleDocument sampleRules emptyWorld 2
           H1 H2).
Defined.

(** Four rules completing in two different orders. *)
Lemma runValidationRules_order_permutes_results_witness :
  [2; 0; 3; 1] ≡ₚ seq 0 (length sampleRules)
  /\ [1; 3; 0; 2] ≡ₚ seq 0 (length sampleRules)
  /\ exists results results',
       (runValidationRules [2; 0; 3; 1] sampleDocument sampleRules emptyWorld).1
       = Some (Fulfilled results)
       /\ (runValidationRules [1; 3; 0; 2] sampleDocument sampleRules emptyWorld).1
          = Some (Fulfilled results')
       /\ results ≡ₚ results'.
Proof.
  assert (H1 : [2; 0; 3; 1] ≡ₚ seq 0 (length sampleRules))
    by (apply (bool_decide_unpack _); vm_compute; exact I).
  assert (H2 : [1; 3; 0; 2] ≡ₚ seq 0 (length sampleRules))
    by (apply (bool_decide_unpack _); vm_compute; exact I).
  split; [exact H1|]. split; [exact H2|].
  exact (runValidationRules_order_permutes_results [2; 0; 3; 1] [1; 3; 0; 2]
           sampleDocument sampleRules emptyWorld emptyWorld H1 H2).
Defined.

(** The sample document, and a rules folder that is missing. *)
Lemma validateManifest_unlistable_rules_folder_witness :
  validateManifest sampleConstants "lib" (Unlistable "ENOENT") sampleScheduler
    (Some sampleDocument) samplePlatforms ["android"] emptyWorld
  = (Some (Rejected
       (VError ("Failed to read validation rules from the specified folder: '"
                +:+ path_join "lib" "validationRules" +:+ "'. " +:+ "ENOENT" +:+ "."))),
     {| console := console emptyWorld;
        trace := trace emptyWorld ++ [EReaddir (path_join "lib" "validationRules")] |}).
Proof.
  exact (validateManifest_unlistable_rules_folder sampleConstants "lib" "ENOENT"
           sampleScheduler sampleDocument {| icons := Some [icon 16] |}
           samplePlatforms ["android"] emptyWorld eq_refl eq_refl).
Defined.

(** The sample document, an empty rules folder and no platform. *)
Lemma validateManifest_nothing_to_run_witness :
  (validateManifest sampleConstants "lib" (Directory []) sampleScheduler
     (Some sampleDocument) [] ["android"] emptyWorld).1 = Some (Fulfilled [])
  /\ console (validateManifest sampleConstants "lib" (Directory []) sampleScheduler
                (Some sampleDocument) [] ["android"] emptyWorld).2
     = console emptyWorld.
Proof.
  exact (validateManifest_nothing_to_run sampleConstants "lib" sampleScheduler
           sampleDocument {| icons := Some [icon 16] |} ["android"] emptyWorld
           eq_refl eq_refl).
Defined.

(** The sample tree and two platforms, of which the first refuses its
    rules and the second ends first. *)
Lemma validateManifest_resolves_witness :
  let platformModules :=
    [ {| getValidationRules := fun _ => Some (Rejected (VError "no rules")) |};
      {| getValidationRules := fun _ => Some (Fulfilled [ruleSilent; ruleSingle]) |} ] in
  exists common parts,
    (forall w0,
       (runValidationRules (commonOrder sampleScheduler) sampleDocument [ruleSingle] w0).1
       = Some (Fulfilled common))
    /\ Forall2 (pipelineAdds sampleScheduler sampleDocument platformModules ["android"])
               (platformOrder sampleScheduler) parts
    /\ (validateManifest sampleConstants "lib" sampleTree sampleScheduler
          (Some sampleDocument) platformModules ["android"] emptyWorld).1
       = Some (Fulfilled (common ++ concat parts)).
Proof.
  intros platformModules.
  apply (validateManifest_resolves sampleConstants "lib"
           [("common.js", File (Exports (LRule ruleSingle)));
            ("android", androidFolder);
            ("ios", Directory [("i.js", File (Exports (LRule ruleSilent)))])]
           sampleScheduler sampleDocument {| icons := Some [icon 16] |}
           platformModules ["android"] emptyWorld eq_refl eq_refl).
  - apply (bool_decide_unpack _). vm_compute. exact I.
  - apply (bool_decide_unpack _). vm_compute. exact I.
  - intros [|[|index]] platform Hp; [| |discriminate Hp].
    + injection Hp as <-. left. eexists. reflexivity.
    + injection Hp as <-. right. eexists. split; [reflexivity|].
      apply (bool_decide_unpack _). vm_compute. exact I.
Defined.

(** The second of two platforms never answers. *)
Lemma validateManifest_stalls_on_silent_platform_witness :
  let platformModules :=
    [ {| getValidationRules := fun _ => Some (Fulfilled [ruleSingle]) |};
      {| getValidationRules := fun _ => None |} ] in
  (validateManifest sampleConstants "lib" sampleTree sampleScheduler
     (Some sampleDocument) platformModules ["android"] emptyWorld).1
  <> Some (Fulfilled [VPrim (PStr "single"); VPrim (PStr "single")]).
Proof.
  intros platformModules.
  exact (validateManifest_stalls_on_silent_platform sampleConstants "lib" sampleTree
           sampleScheduler (Some sampleDocument) platformModules ["android"]
           emptyWorld 1 {| getValidationRules := fun _ => None |} _ eq_refl eq_refl).
Defined.

(** Icons of sizes 16 and 32, both required. *)
Lemma imageValidation_silent_implies_group_silent_witness :
  imageGroupValidation sampleConstants {| icons := Some [icon 16; icon 32] |}
    "one of" "web" [PNum 16; PNum 32] pair
  = (undefined, undefined).
Proof.
  apply (imageValidation_silent_implies_group_silent sampleConstants
           {| icons := Some [icon 16; icon 32] |} [icon 16; icon 32]
           "all of" "web" "error" "one of" "web" [PNum 16; PNum 32]);
    [reflexivity | discriminate | discriminate | reflexivity].
Defined.

(** The same sizes in another order and with a repetition. *)
Lemma icon_rules_depend_on_the_sizes_only_witness :
  imageValidation sampleConstants {| icons := Some [icon 16; icon 32] |}
    "desc" "web" "error" [PNum 16; PNum 64] pair
  = imageValidation sampleConstants {| icons := Some [icon 32; icon 16; icon 32] |}
      "desc" "web" "error" [PNum 16; PNum 64] pair
  /\ imageGroupValidation sampleConstants {| icons := Some [icon 16; icon 32] |}
       "desc" "web" [PNum 16; PNum 64] pair
     = imageGroupValidation sampleConstants
         {| icons := Some [icon 32; icon 16; icon 32] |}
         "desc" "web" [PNum 16; PNum 64] pair.
Proof.
  apply (icon_rules_depend_on_the_sizes_only sampleConstants _ pair
           {| icons := Some [icon 16; icon 32] |}
           {| icons := Some [icon 32; icon 16; icon 32] |}
           [icon 16; icon 32] [icon 32; icon 16; icon 32]);
    [reflexivity | reflexivity | discriminate | discriminate |].
  intros size. cbn [fmap list_fmap icon sizes].
  repeat first [rewrite elem_of_cons | rewrite elem_of_nil]. tauto.
Defined.

(** An icon of size ["16"] when the number 16 is required. *)
Lemma imageValidation_number_is_not_string_witness :
  imageValidation sampleConstants {| icons := Some [ {| sizes := PStr "16" |} ] |}
    "desc" "web" "error" [PNum 16] pair
  = (undefined,
     VRecord {| description := "desc"; platform := "web"; level := "error";
                member := "icons"; code := "missing-image"; data := [PNum 16] |}).
Proof.
  apply (imageValidation_number_is_not_string sampleConstants _ pair
           {| icons := Some [ {| sizes := PStr "16" |} ] |}
           [ {| sizes := PStr "16" |} ] "desc" "web" "error" [PNum 16]);
    [reflexivity | discriminate | | | discriminate];
    repeat constructor; eexists; reflexivity.
Defined.
